(** * ConvCharm (AICT): the channel-conditional entropy coding pipeline

    A shallow embedding of [src/conv-charm.py]: the model constructor with
    its configuration checks, the scale mapping, the three slice loops
    ([call], [compress], [decompress]) and the lifecycle transition done by
    [fit].

    Tensors are NHWC nested lists.  The learned networks and the range
    coder of tensorflow-compression are external to the repository; they
    enter as records of functions. *)

From Stdlib Require Import List ZArith QArith Qround Reals Lia Lra Bool.
From Stdlib Require Import Strings.Byte.
From Stdlib Require Lqa.
Import ListNotations.

Set Implicit Arguments.

(* ------------------------------------------------------------------ *)
(** ** Exceptions and the error monad *)

Inductive exn : Type :=
| ZeroDivisionError
| ValueError
| AssertionError
| AttributeError
| IndexError
| RuntimeError
| SignatureError
| InvalidArgumentError.

Inductive result (A : Type) : Type :=
| Ok (a : A)
| Err (e : exn).

Arguments Ok {A} a.
Arguments Err {A} e.

Definition bind {A B : Type} (r : result A) (k : A -> result B) : result B :=
  match r with
  | Ok a => k a
  | Err e => Err e
  end.

Declare Scope result_scope.
Delimit Scope result_scope with result.

Notation "x <- c ;; k" := (bind c (fun x => k))
  (at level 100, c at next level, right associativity) : result_scope.
Notation "' p <- c ;; k" := (bind c (fun p => k))
  (at level 100, p pattern, c at next level, right associativity) : result_scope.

Open Scope result_scope.
Open Scope Z_scope.

Definition is_err {A : Type} (r : result A) : bool :=
  match r with
  | Ok _ => false
  | Err _ => true
  end.

(** [assert cond] of Python. *)
Definition py_assert (cond : bool) : result unit :=
  if cond then Ok tt else Err AssertionError.

(* ------------------------------------------------------------------ *)
(** ** Python sequences *)

(** Normalisation of one bound of a slice of a sequence of length [len]:
    a negative bound counts from the end, and both are clamped. *)
Definition py_bound (len i : Z) : Z :=
  if i <? 0 then Z.max 0 (i + len) else Z.min i len.

(** [l[start:stop]]. *)
Definition py_slice {A : Type} (start stop : Z) (l : list A) : list A :=
  let len := Z.of_nat (length l) in
  let s := py_bound len start in
  let e := py_bound len stop in
  firstn (Z.to_nat (e - s)) (skipn (Z.to_nat s) l).

(** [l[:stop]]. *)
Definition py_upto {A : Type} (stop : Z) (l : list A) : list A :=
  py_slice 0 stop l.

(** [l[i]] for an index produced by [enumerate] (never negative). *)
Definition py_index {A : Type} (l : list A) (i : nat) : result A :=
  match nth_error l i with
  | Some a => Ok a
  | None => Err IndexError
  end.

(** [range(n)]: empty when [n <= 0]. *)
Definition py_range (n : Z) : list nat := seq 0 (Z.to_nat n).

(* ------------------------------------------------------------------ *)
(** ** Tensors *)

(** One pixel is its vector of channels. *)
Definition pixel : Type := list Q.

(** Height x width x channels. *)
Definition fmap3 : Type := list (list pixel).

(** Batch x height x width x channels. *)
Definition tensor : Type := list fmap3.

(** An 8-bit image, height x width x channels. *)
Definition image : Type := list (list (list Z)).

(** A spatial shape: the two entries of an int32 tensor of shape (2,). *)
Definition shape2 : Type := (Z * Z)%type.

Definition bitstring : Type := list byte.

(** [tf.shape(t)[1:-1]]. *)
Definition spatial_shape (t : tensor) : shape2 :=
  match t with
  | [] => (0, 0)
  | im :: _ => (Z.of_nat (length im), Z.of_nat (length (hd [] im)))
  end.

(** Size of the last axis. *)
Definition channels (t : tensor) : nat :=
  length (hd [] (hd [] (hd [] t))).

Definition map_pixels (f : pixel -> pixel) (t : tensor) : tensor :=
  map (map (map f)) t.

(** [t[:, :, :, start:stop]]. *)
Definition slice_channels (start stop : Z) (t : tensor) : tensor :=
  map_pixels (py_slice start stop) t.

(** [t[:, :h, :w, :]]. *)
Definition crop_spatial (hw : shape2) (t : tensor) : tensor :=
  map (fun im => map (py_upto (snd hw)) (py_upto (fst hw) im)) t.

(** Pointwise combination of two lists of the same length. *)
Fixpoint zip_exact {A : Type} (f : A -> A -> result A) (a b : list A)
  : result (list A) :=
  match a, b with
  | [], [] => Ok []
  | x :: a', y :: b' =>
      z <- f x y ;;
      r <- zip_exact f a' b' ;;
      Ok (z :: r)
  | _, _ => Err InvalidArgumentError
  end.

(** Concatenation of two tensors along the last axis; the other three
    dimensions have to agree. *)
Definition concat2 (a b : tensor) : result tensor :=
  zip_exact (zip_exact (zip_exact (fun p q => Ok (p ++ q)))) a b.

(** [tf.concat(ts, axis=-1)]. *)
Fixpoint tf_concat (ts : list tensor) : result tensor :=
  match ts with
  | [] => Err ValueError
  | [t] => Ok t
  | t :: rest => r <- tf_concat rest ;; concat2 t r
  end.

(** [tf.split(t, num, axis=-1)]: [num] equal parts, an error when [num] is
    not positive or does not divide the number of channels. *)
Definition tf_split (t : tensor) (num : Z) : result (list tensor) :=
  let c := Z.of_nat (channels t) in
  if num <? 1 then Err ValueError
  else if negb (c mod num =? 0) then Err ValueError
  else
    let part := c / num in
    Ok (map (fun i => slice_channels (Z.of_nat i * part)
                                     (Z.of_nat i * part + part) t)
            (py_range num)).

(** [a, b = tf.split(t, 2, axis=-1)]. *)
Definition tf_split2 (t : tensor) : result (tensor * tensor) :=
  parts <- tf_split t 2 ;;
  match parts with
  | [a; b] => Ok (a, b)
  | _ => Err ValueError
  end.

(* ------------------------------------------------------------------ *)
(** ** Floating-point scalars of the scale mapping

    The scale mapping is computed once, on scalars, with [log], [exp] and a
    division.  Finite values are idealised as real numbers; the three
    special values of IEEE 754 arithmetic are kept, since TensorFlow
    returns them instead of raising.  Every zero is the positive zero: the
    only divisor of the program is [num_scales - 1.], an integer minus
    one. *)

Inductive xfloat : Type :=
| Fin (r : R)
| PInf
| NInf
| NaN.

Definition is_finite (x : xfloat) : Prop :=
  match x with
  | Fin _ => True
  | _ => False
  end.

(** The infinity of the given sign. *)
Definition xinf (positive : bool) : xfloat :=
  if positive then PInf else NInf.

(** An infinity of sign [positive] multiplied by the finite [r]. *)
Definition xinf_scaled (positive : bool) (r : R) : xfloat :=
  if Rlt_dec 0 r then xinf positive
  else if Rlt_dec r 0 then xinf (negb positive)
  else NaN.

Definition xlog (x : xfloat) : xfloat :=
  match x with
  | Fin r => if Rlt_dec 0 r then Fin (ln r)
             else if Rlt_dec r 0 then NaN
             else NInf
  | PInf => PInf
  | NInf => NaN
  | NaN => NaN
  end.

Definition xexp (x : xfloat) : xfloat :=
  match x with
  | Fin r => Fin (exp r)
  | PInf => PInf
  | NInf => Fin 0
  | NaN => NaN
  end.

Definition xadd (x y : xfloat) : xfloat :=
  match x, y with
  | NaN, _ | _, NaN => NaN
  | Fin a, Fin b => Fin (a + b)
  | PInf, NInf | NInf, PInf => NaN
  | PInf, _ | _, PInf => PInf
  | NInf, _ | _, NInf => NInf
  end.

Definition xneg (x : xfloat) : xfloat :=
  match x with
  | Fin r => Fin (- r)
  | PInf => NInf
  | NInf => PInf
  | NaN => NaN
  end.

Definition xsub (x y : xfloat) : xfloat := xadd x (xneg y).

Definition xmul (x y : xfloat) : xfloat :=
  match x, y with
  | NaN, _ | _, NaN => NaN
  | Fin a, Fin b => Fin (a * b)
  | PInf, Fin r | Fin r, PInf => xinf_scaled true r
  | NInf, Fin r | Fin r, NInf => xinf_scaled false r
  | PInf, PInf | NInf, NInf => PInf
  | PInf, NInf | NInf, PInf => NInf
  end.

Definition xdiv (x y : xfloat) : xfloat :=
  match x, y with
  | NaN, _ | _, NaN => NaN
  | Fin a, Fin b =>
      if Rlt_dec 0 b then Fin (a / b)
      else if Rlt_dec b 0 then Fin (a / b)
      else if Rlt_dec 0 a then PInf
      else if Rlt_dec a 0 then NInf
      else NaN
  | Fin _, _ => Fin 0
  | PInf, Fin b => if Rlt_dec b 0 then NInf else PInf
  | NInf, Fin b => if Rlt_dec b 0 then PInf else NInf
  | _, _ => NaN
  end.

(* ------------------------------------------------------------------ *)
(** ** tensorflow-compression: the two entropy models *)

(** The trainable variables of [tfc.NoisyDeepFactorized]. *)
Definition prior : Type := list Q.

(** [tfc.ContinuousBatchedEntropyModel(prior, coding_rank=3,
    compression=..., offset_heuristic=False)]. *)
Record ContinuousBatchedEntropyModel : Type := {
  cb_prior : prior;
  cb_compression : bool
}.

(** [tfc.LocationScaleIndexedEntropyModel(tfc.NoisyNormal, num_scales=...,
    scale_fn=..., coding_rank=3, compression=...)]. *)
Record LocationScaleIndexedEntropyModel : Type := {
  ls_num_scales : Z;
  ls_scale_fn : xfloat -> xfloat;
  ls_compression : bool
}.

(** What the library computes: rounding and the range coder. *)
Record tfc : Type := {
  cb_quantize : ContinuousBatchedEntropyModel -> tensor -> tensor;
  cb_encode : ContinuousBatchedEntropyModel -> tensor -> bitstring;
  cb_decode : ContinuousBatchedEntropyModel -> bitstring -> shape2 -> tensor;
  ls_quantize : LocationScaleIndexedEntropyModel -> tensor -> tensor -> tensor;
  ls_encode : LocationScaleIndexedEntropyModel ->
              tensor -> tensor -> tensor -> bitstring;
  ls_decode : LocationScaleIndexedEntropyModel ->
              bitstring -> tensor -> tensor -> tensor
}.

(** Range coding needs a model instantiated with [compression=True]. *)
Definition check_compression (flag : bool) : result unit :=
  if flag then Ok tt else Err RuntimeError.

(** [em_z.compress(z)]. *)
Definition em_z_compress (lib : tfc) (em : ContinuousBatchedEntropyModel)
  (z : tensor) : result bitstring :=
  _ <- check_compression (cb_compression em) ;;
  Ok (cb_encode lib em z).

(** [em_z.decompress(z_string, z_shape)]. *)
Definition em_z_decompress (lib : tfc) (em : ContinuousBatchedEntropyModel)
  (z_string : bitstring) (z_shape : shape2) : result tensor :=
  _ <- check_compression (cb_compression em) ;;
  Ok (cb_decode lib em z_string z_shape).

(** [em_y.compress(y_slice, sigma, mu)]. *)
Definition em_y_compress (lib : tfc) (em : LocationScaleIndexedEntropyModel)
  (y_slice sigma mu : tensor) : result bitstring :=
  _ <- check_compression (ls_compression em) ;;
  Ok (ls_encode lib em y_slice sigma mu).

(** [em_y.decompress(y_string, sigma, mu)]. *)
Definition em_y_decompress (lib : tfc) (em : LocationScaleIndexedEntropyModel)
  (y_string : bitstring) (sigma mu : tensor) : result tensor :=
  _ <- check_compression (ls_compression em) ;;
  Ok (ls_decode lib em y_string sigma mu).

(* ------------------------------------------------------------------ *)
(** ** The model object *)

(** The arguments of [ConvCharm.__init__]. *)
Record config : Type := {
  c_lmbda : Q;
  c_num_filters : Z;
  c_latent_depth : Z;
  c_hyperprior_depth : Z;
  c_num_slices : Z;
  c_max_support_slices : Z;
  c_num_scales : Z;
  c_scale_min : R;
  c_scale_max : R
}.

(** The values of the trainable variables, as the functions the layers
    compute with them; slice transforms are numbered. *)
Record weights : Type := {
  w_analysis : tensor -> tensor;
  w_synthesis : tensor -> tensor;
  w_hyper_analysis : tensor -> tensor;
  w_hyper_synthesis : tensor -> tensor;
  w_cc_mean : nat -> tensor -> tensor;
  w_cc_scale : nat -> tensor -> tensor;
  w_hyperprior : prior
}.

(** The attributes of a [ConvCharm] instance.  [em_z] and [em_y] do not
    exist until [fit] has set them. *)
Record ConvCharm : Type := {
  lmbda : Q;
  num_scales : Z;
  num_slices : Z;
  slice_size : Z;
  max_support_slices : Z;
  scale_fn : xfloat -> xfloat;
  analysis_transform : tensor -> tensor;
  synthesis_transform : tensor -> tensor;
  hyper_analysis_transform : tensor -> tensor;
  hyper_synthesis_mean_scale_transform : tensor -> tensor;
  cc_mean_transforms : list (tensor -> tensor);
  cc_scale_transforms : list (tensor -> tensor);
  hyperprior : prior;
  em_z : option ContinuousBatchedEntropyModel;
  em_y : option LocationScaleIndexedEntropyModel
}.

(** [a // b] of Python on integers. *)
Definition floordiv (a b : Z) : result Z :=
  if b =? 0 then Err ZeroDivisionError else Ok (a / b).

(** [SliceTransform.__init__(latent_depth, num_slices)], the layers being
    those computing [f]. *)
Definition SliceTransform (latent_depth n_slices : Z) (f : tensor -> tensor)
  : result (tensor -> tensor) :=
  slice_depth <- floordiv latent_depth n_slices ;;
  if negb (slice_depth * n_slices =? latent_depth) then Err ValueError
  else Ok f.

(** [[g(x) for x in l]] for a [g] that may raise. *)
Fixpoint comprehension {A B : Type} (g : A -> result B) (l : list A)
  : result (list B) :=
  match l with
  | [] => Ok []
  | x :: l' =>
      b <- g x ;;
      r <- comprehension g l' ;;
      Ok (b :: r)
  end.

(** The scale mapping of lines 174-177. *)
Definition scale_offset (scale_min : R) : xfloat := xlog (Fin scale_min).

Definition scale_factor (n_scales : Z) (scale_min scale_max : R) : xfloat :=
  xdiv (xsub (xlog (Fin scale_max)) (xlog (Fin scale_min)))
       (Fin (IZR n_scales - 1)).

Definition make_scale_fn (n_scales : Z) (scale_min scale_max : R)
  : xfloat -> xfloat :=
  let offset := scale_offset scale_min in
  let factor := scale_factor n_scales scale_min scale_max in
  fun i => xexp (xadd offset (xmul factor i)).

(** Static check of one [tf.split] on a tensor of [c] channels. *)
Definition static_split (c num : Z) : result unit :=
  if num <? 1 then Err ValueError
  else if negb (c mod num =? 0) then Err ValueError
  else Ok tt.

(** [self.build((None, None, None, 3))]: Keras traces [call] on a
    placeholder.  The spatial dimensions of the trace are unknown and its
    channel counts are static, so what can fail in it are the two
    [tf.split]s of [call], on [latent_depth] channels each. *)
Definition build (latent_depth n_slices : Z) : result unit :=
  _ <- static_split latent_depth 2 ;;
  static_split latent_depth n_slices.

(** [ConvCharm.__init__]. *)
Definition init (w : weights) (c : config) : result ConvCharm :=
  size <- floordiv (c_latent_depth c) (c_num_slices c) ;;
  let fn := make_scale_fn (c_num_scales c) (c_scale_min c) (c_scale_max c) in
  means <- comprehension
             (fun i => SliceTransform (c_latent_depth c) (c_num_slices c)
                                      (w_cc_mean w i))
             (py_range (c_num_slices c)) ;;
  scales <- comprehension
              (fun i => SliceTransform (c_latent_depth c) (c_num_slices c)
                                       (w_cc_scale w i))
              (py_range (c_num_slices c)) ;;
  _ <- build (c_latent_depth c) (c_num_slices c) ;;
  Ok {| lmbda := c_lmbda c;
        num_scales := c_num_scales c;
        num_slices := c_num_slices c;
        slice_size := size;
        max_support_slices := c_max_support_slices c;
        scale_fn := fn;
        analysis_transform := w_analysis w;
        synthesis_transform := w_synthesis w;
        hyper_analysis_transform := w_hyper_analysis w;
        hyper_synthesis_mean_scale_transform := w_hyper_synthesis w;
        cc_mean_transforms := means;
        cc_scale_transforms := scales;
        hyperprior := w_hyperprior w;
        em_z := None;
        em_y := None |}.

(** [ConvCharm.fit]: training leaves the variables at [trained]; then the
    range coding tables are fixed. *)
Definition fit (trained : weights) (m : ConvCharm) : ConvCharm :=
  {| lmbda := lmbda m;
     num_scales := num_scales m;
     num_slices := num_slices m;
     slice_size := slice_size m;
     max_support_slices := max_support_slices m;
     scale_fn := scale_fn m;
     analysis_transform := w_analysis trained;
     synthesis_transform := w_synthesis trained;
     hyper_analysis_transform := w_hyper_analysis trained;
     hyper_synthesis_mean_scale_transform := w_hyper_synthesis trained;
     cc_mean_transforms :=
       map (w_cc_mean trained) (seq 0 (length (cc_mean_transforms m)));
     cc_scale_transforms :=
       map (w_cc_scale trained) (seq 0 (length (cc_scale_transforms m)));
     hyperprior := w_hyperprior trained;
     em_z := Some {| cb_prior := w_hyperprior trained;
                     cb_compression := true |};
     em_y := Some {| ls_num_scales := num_scales m;
                     ls_scale_fn := scale_fn m;
                     ls_compression := true |} |}.

(** Reading [self.em_z] and [self.em_y]. *)
Definition get_em_z (m : ConvCharm) : result ContinuousBatchedEntropyModel :=
  match em_z m with
  | Some em => Ok em
  | None => Err AttributeError
  end.

Definition get_em_y (m : ConvCharm) : result LocationScaleIndexedEntropyModel :=
  match em_y m with
  | Some em => Ok em
  | None => Err AttributeError
  end.

(* ------------------------------------------------------------------ *)
(** ** The slice loop *)

(** Lines 242-243: the slices the current one is conditioned on. *)
Definition support_slices (m : ConvCharm) (y_hat_slices : list tensor)
  : list tensor :=
  if max_support_slices m <? 0 then y_hat_slices
  else py_upto (max_support_slices m) y_hat_slices.

(** Lines 245-248: the channel range of [latent] taken for a slice. *)
Definition context_slice (m : ConvCharm) (slice_index : nat) (latent : tensor)
  : tensor :=
  let start_index := Z.of_nat slice_index * slice_size m in
  let end_index := Z.of_nat slice_index * slice_size m + slice_size m in
  slice_channels start_index end_index latent.

(** Lines 250-259: [mu] and [sigma] of a slice from its support. *)
Definition predict (m : ConvCharm) (latent_means latent_scales : tensor)
  (y_shape : shape2) (slice_index : nat) (support : list tensor)
  : result (tensor * tensor) :=
  let latent_means_slice := context_slice m slice_index latent_means in
  let latent_scales_slice := context_slice m slice_index latent_scales in
  mean_support <- tf_concat (latent_means_slice :: support) ;;
  cc_mean <- py_index (cc_mean_transforms m) slice_index ;;
  let mu := crop_spatial y_shape (cc_mean mean_support) in
  scale_support <- tf_concat (latent_scales_slice :: support) ;;
  cc_scale <- py_index (cc_scale_transforms m) slice_index ;;
  let sigma := crop_spatial y_shape (cc_scale scale_support) in
  Ok (mu, sigma).

(** Lines 242-259, shared by the three passes. *)
Definition slice_params (m : ConvCharm) (latent_means latent_scales : tensor)
  (y_shape : shape2) (slice_index : nat) (y_hat_slices : list tensor)
  : result (tensor * tensor) :=
  predict m latent_means latent_scales y_shape slice_index
          (support_slices m y_hat_slices).

Section Loop.

Variables X O : Type.

(** The body of one iteration: from the index, the item and the slices
    decoded so far, the decoded slice and what the pass emits. *)
Variable step : nat -> X -> list tensor -> result (tensor * O).

(** [for slice_index, x in enumerate(xs)], appending to [y_hat_slices]
    and to the emitted list. *)
Fixpoint slice_loop (slice_index : nat) (xs : list X)
  (y_hat_slices : list tensor) (outs : list O)
  : result (list tensor * list O) :=
  match xs with
  | [] => Ok (y_hat_slices, outs)
  | x :: rest =>
      '(y_hat_slice, o) <- step slice_index x y_hat_slices ;;
      slice_loop (S slice_index) rest
                 (y_hat_slices ++ [y_hat_slice]) (outs ++ [o])
  end.

End Loop.

(** Lines 240-271, the body of the loop of [call]. *)
Definition call_step (lib : tfc) (m : ConvCharm)
  (em : LocationScaleIndexedEntropyModel)
  (latent_means latent_scales : tensor) (y_shape : shape2)
  (slice_index : nat) (y_slice : tensor) (y_hat_slices : list tensor)
  : result (tensor * unit) :=
  '(mu, sigma) <- slice_params m latent_means latent_scales y_shape
                               slice_index y_hat_slices ;;
  Ok (ls_quantize lib em y_slice mu, tt).

(** Lines 364-389, the body of the loop of [compress]. *)
Definition compress_step (lib : tfc) (m : ConvCharm)
  (latent_means latent_scales : tensor) (y_shape : shape2)
  (slice_index : nat) (y_slice : tensor) (y_hat_slices : list tensor)
  : result (tensor * bitstring) :=
  '(mu, sigma) <- slice_params m latent_means latent_scales y_shape
                               slice_index y_hat_slices ;;
  em <- get_em_y m ;;
  slice_string <- em_y_compress lib em y_slice sigma mu ;;
  em' <- get_em_y m ;;
  y_hat_slice <- em_y_decompress lib em' slice_string sigma mu ;;
  Ok (y_hat_slice, slice_string).

(** Lines 405-428, the body of the loop of [decompress]. *)
Definition decompress_step (lib : tfc) (m : ConvCharm)
  (latent_means latent_scales : tensor) (y_shape : shape2)
  (slice_index : nat) (y_string : bitstring) (y_hat_slices : list tensor)
  : result (tensor * unit) :=
  '(mu, sigma) <- slice_params m latent_means latent_scales y_shape
                               slice_index y_hat_slices ;;
  em <- get_em_y m ;;
  y_hat_slice <- em_y_decompress lib em y_string sigma mu ;;
  Ok (y_hat_slice, tt).

(* ------------------------------------------------------------------ *)
(** ** The three passes *)

(** What the loop of a pass reads and does not change. *)
Record slice_context : Type := {
  latent_means : tensor;
  latent_scales : tensor;
  latent_shape : shape2
}.

(** *** [call] *)

(** Lines 201-235: up to the loop. *)
Definition call_context (lib : tfc) (m : ConvCharm) (x : tensor)
  : result (slice_context * list tensor) :=
  let y := analysis_transform m x in
  let y_shape := spatial_shape y in
  let z := hyper_analysis_transform m y in
  let em_z := {| cb_prior := hyperprior m; cb_compression := false |} in
  let z_hat := cb_quantize lib em_z z in
  let latent_means_scales := hyper_synthesis_mean_scale_transform m z_hat in
  '(means, scales) <- tf_split2 latent_means_scales ;;
  y_slices <- tf_split y (num_slices m) ;;
  Ok ({| latent_means := means; latent_scales := scales;
         latent_shape := y_shape |}, y_slices).

(** The entropy model [em_y] built by [call]. *)
Definition call_em_y (m : ConvCharm) : LocationScaleIndexedEntropyModel :=
  {| ls_num_scales := num_scales m;
     ls_scale_fn := scale_fn m;
     ls_compression := false |}.

(** The loop of [call] on given slices. *)
Definition call_loop (lib : tfc) (m : ConvCharm) (ctx : slice_context)
  (y_slices : list tensor) : result (list tensor * list unit) :=
  slice_loop (call_step lib m (call_em_y m) (latent_means ctx)
                        (latent_scales ctx) (latent_shape ctx))
             0 y_slices [] [].

(** [call], lines 199-276: the decoded slices and the reconstruction.
    The rate and distortion scalars computed next to them do not feed back
    into the slices and are left out; [training] only selects how the rate
    is estimated. *)
Definition call_forward (lib : tfc) (m : ConvCharm) (x : tensor)
  (training : bool) : result (list tensor * tensor) :=
  '(ctx, y_slices) <- call_context lib m x ;;
  '(y_hat_slices, _) <- call_loop lib m ctx y_slices ;;
  y_hat <- tf_concat y_hat_slices ;;
  let x_hat := synthesis_transform m y_hat in
  Ok (y_hat_slices, x_hat).

(** The support gathered by [call] on entering iteration [slice_index]:
    the loop run on the slices before it, then lines 242-243. *)
Definition call_support (lib : tfc) (m : ConvCharm) (x : tensor)
  (training : bool) (slice_index : nat) : result (list tensor) :=
  '(ctx, y_slices) <- call_context lib m x ;;
  '(y_hat_slices, _) <- call_loop lib m ctx (firstn slice_index y_slices) ;;
  Ok (support_slices m y_hat_slices).

(** *** [compress] *)

(** The tuple returned by [compress] and taken by [decompress]. *)
Record bitstream : Type := {
  x_shape : shape2;
  y_shape : shape2;
  z_shape : shape2;
  z_string : bitstring;
  y_strings : list bitstring
}.

(** [tf.cast(tf.expand_dims(x, 0), compute_dtype)]. *)
Definition batch_of_image (x : image) : tensor :=
  [map (map (map inject_Z)) x].

(** Lines 342-362: up to the loop; the three shapes, the string of the
    hyperprior, the context of the loop and the slices of [y]. *)
Definition compress_context (lib : tfc) (m : ConvCharm) (x : image)
  : result (shape2 * shape2 * bitstring * slice_context * list tensor) :=
  let x := batch_of_image x in
  let xs := spatial_shape x in
  let y := analysis_transform m x in
  let ys := spatial_shape y in
  let z := hyper_analysis_transform m y in
  let zs := spatial_shape z in
  em <- get_em_z m ;;
  zstr <- em_z_compress lib em z ;;
  em' <- get_em_z m ;;
  z_hat <- em_z_decompress lib em' zstr zs ;;
  let latent_means_scales := hyper_synthesis_mean_scale_transform m z_hat in
  '(means, scales) <- tf_split2 latent_means_scales ;;
  y_slices <- tf_split y (num_slices m) ;;
  Ok (xs, zs, zstr,
      {| latent_means := means; latent_scales := scales;
         latent_shape := ys |}, y_slices).

(** The loop of [compress] on given slices. *)
Definition compress_loop (lib : tfc) (m : ConvCharm) (ctx : slice_context)
  (y_slices : list tensor) : result (list tensor * list bitstring) :=
  slice_loop (compress_step lib m (latent_means ctx) (latent_scales ctx)
                            (latent_shape ctx))
             0 y_slices [] [].

(** [compress], lines 339-391, returning next to its tuple the slices it
    decoded on the way. *)
Definition compress_trace (lib : tfc) (m : ConvCharm) (x : image)
  : result (bitstream * list tensor) :=
  '(xs, zs, zstr, ctx, y_slices) <- compress_context lib m x ;;
  '(y_hat_slices, ystrs) <- compress_loop lib m ctx y_slices ;;
  Ok ({| x_shape := xs; y_shape := latent_shape ctx; z_shape := zs;
         z_string := zstr; y_strings := ystrs |}, y_hat_slices).

Definition compress (lib : tfc) (m : ConvCharm) (x : image)
  : result bitstream :=
  '(out, _) <- compress_trace lib m x ;;
  Ok out.

(** The support gathered by [compress] on entering iteration
    [slice_index]. *)
Definition compress_support (lib : tfc) (m : ConvCharm) (x : image)
  (slice_index : nat) : result (list tensor) :=
  '(_, _, _, ctx, y_slices) <- compress_context lib m x ;;
  '(y_hat_slices, _) <-
     compress_loop lib m ctx (firstn slice_index y_slices) ;;
  Ok (support_slices m y_hat_slices).

(** *** [decompress] *)

(** [tf.round]: to the nearest integer, halves to the even one. *)
Definition tf_round (q : Q) : Q :=
  let f := Qfloor q in
  match Qcompare (q - inject_Z f) (1 # 2) with
  | Lt => inject_Z f
  | Gt => inject_Z (f + 1)
  | Eq => if Z.even f then inject_Z f else inject_Z (f + 1)
  end.

(** [tf.saturate_cast(., tf.uint8)]: clamp to the range, then cast. *)
Definition saturate_cast_uint8 (q : Q) : Z :=
  if Qle_bool q 0 then 0
  else if Qle_bool 255 q then 255
  else Qfloor q.

(** [x_hat[0, :h, :w, :]]. *)
Definition crop_first (hw : shape2) (x_hat : tensor) : result fmap3 :=
  match x_hat with
  | [] => Err InvalidArgumentError
  | im :: _ => Ok (map (py_upto (snd hw)) (py_upto (fst hw) im))
  end.

(** Lines 434-437 applied to the output of the synthesis transform. *)
Definition to_pixels (hw : shape2) (x_hat : tensor) : result image :=
  cropped <- crop_first hw x_hat ;;
  Ok (map (map (map (fun q => saturate_cast_uint8 (tf_round q)))) cropped).

(** Lines 395-401: up to the loop. *)
Definition decompress_context (lib : tfc) (m : ConvCharm) (b : bitstream)
  : result slice_context :=
  _ <- py_assert (Z.of_nat (length (y_strings b)) =? num_slices m) ;;
  em <- get_em_z m ;;
  z_hat <- em_z_decompress lib em (z_string b) (z_shape b) ;;
  let latent_means_scales := hyper_synthesis_mean_scale_transform m z_hat in
  '(means, scales) <- tf_split2 latent_means_scales ;;
  Ok {| latent_means := means; latent_scales := scales;
        latent_shape := y_shape b |}.

(** The loop of [decompress] on given strings. *)
Definition decompress_loop (lib : tfc) (m : ConvCharm) (ctx : slice_context)
  (strings : list bitstring) : result (list tensor * list unit) :=
  slice_loop (decompress_step lib m (latent_means ctx) (latent_scales ctx)
                              (latent_shape ctx))
             0 strings [] [].

(** [decompress], lines 393-437, returning next to its pair the decoded
    slices. *)
Definition decompress_trace (lib : tfc) (m : ConvCharm) (b : bitstream)
  : result (image * tensor * list tensor) :=
  ctx <- decompress_context lib m b ;;
  '(y_hat_slices, _) <- decompress_loop lib m ctx (y_strings b) ;;
  y_hat <- tf_concat y_hat_slices ;;
  let x_hat := synthesis_transform m y_hat in
  pixels <- to_pixels (x_shape b) x_hat ;;
  Ok (pixels, y_hat, y_hat_slices).

(** The method [decompress]: the pair of line 437. *)
Definition decompress (lib : tfc) (m : ConvCharm) (b : bitstream)
  : result (image * tensor) :=
  '(pixels, y_hat, _) <- decompress_trace lib m b ;;
  Ok (pixels, y_hat).

(** The support gathered by [decompress] on entering iteration
    [slice_index]. *)
Definition decompress_support (lib : tfc) (m : ConvCharm) (b : bitstream)
  (slice_index : nat) : result (list tensor) :=
  ctx <- decompress_context lib m b ;;
  '(y_hat_slices, _) <-
     decompress_loop lib m ctx (firstn slice_index (y_strings b)) ;;
  Ok (support_slices m y_hat_slices).

(** Lines 193-196: the attribute [self.decompress] is the method under a
    signature of three shapes and [num_slices + 1] strings; a call with
    another number of arguments does not reach the method. *)
Definition check_signature (m : ConvCharm) (b : bitstream) : result unit :=
  if Z.of_nat (S (length (y_strings b))) =? Z.max 0 (num_slices m + 1)
  then Ok tt else Err SignatureError.

Definition decompress_fn (lib : tfc) (m : ConvCharm) (b : bitstream)
  : result (image * tensor) :=
  _ <- check_signature m b ;;
  decompress lib m b.

(** Values a call returns to Python. *)
#[warnings="-register-all"] Inductive pyval : Type :=
| PyUint8 (im : image)
| PyFloat (t : tensor)
| PyTuple (items : list pyval).

(** The object returned by [decompress]. *)
Definition decompress_value (lib : tfc) (m : ConvCharm) (b : bitstream)
  : result pyval :=
  '(pixels, y_hat) <- decompress_fn lib m b ;;
  Ok (PyTuple [PyUint8 pixels; PyFloat y_hat]).

(* ------------------------------------------------------------------ *)
(** ** A small instance

    Networks and a coder simple enough to run: every tensor has one pixel,
    the coder writes one byte per channel. *)

Module Toy.

Definition first_pixel (t : tensor) : pixel := hd [] (hd [] (hd [] t)).

Definition one_pixel (p : pixel) : tensor := [[[p]]].

Definition byte_of_Q (q : Q) : byte :=
  match Byte.of_N (Z.to_N (Qfloor q mod 256)) with
  | Some b => b
  | None => x00
  end.

Definition Q_of_byte (b : byte) : Q := inject_Z (Z.of_N (Byte.to_N b)).

Definition total (p : pixel) : Q := fold_right Qplus 0%Q p.

(** The residual of a slice against its predicted mean, one byte per
    channel, and back. *)
Definition encode (y mu : tensor) : bitstring :=
  map (fun ab => byte_of_Q (fst ab - snd ab))
      (combine (first_pixel y) (first_pixel mu)).

Definition decode (s : bitstring) (mu : tensor) : tensor :=
  one_pixel (map (fun ab => (Q_of_byte (fst ab) + snd ab)%Q)
                 (combine s (first_pixel mu))).

Definition lib : tfc :=
  {| cb_quantize := fun _ z => map_pixels (map tf_round) z;
     cb_encode := fun _ z => map byte_of_Q (first_pixel z);
     cb_decode := fun _ s _ => one_pixel (map Q_of_byte s);
     ls_quantize := fun _ y mu => decode (encode y mu) mu;
     ls_encode := fun _ y _ mu => encode y mu;
     ls_decode := fun _ s _ mu => decode s mu |}.

(** Networks for a latent of [depth] channels cut into slices of [size]
    channels. *)
Definition nets (depth size : nat) : weights :=
  {| w_analysis :=
       fun x => one_pixel
                  (map (fun i => (total (first_pixel x)
                                  + inject_Z (Z.of_nat i))%Q)
                       (seq 0 depth));
     w_synthesis := fun y => one_pixel (firstn 3 (first_pixel y));
     w_hyper_analysis := fun y => one_pixel (firstn 1 (first_pixel y));
     w_hyper_synthesis :=
       fun z => one_pixel (repeat (total (first_pixel z)) depth);
     w_cc_mean :=
       fun i t => one_pixel (repeat (inject_Z (Z.of_nat (channels t))) size);
     w_cc_scale :=
       fun i t => one_pixel (repeat (total (first_pixel t)) size);
     w_hyperprior := [] |}.

Definition conf (depth n_slices support n_scales : Z) : config :=
  {| c_lmbda := 1 # 100;
     c_num_filters := 192;
     c_latent_depth := depth;
     c_hyperprior_depth := 192;
     c_num_slices := n_slices;
     c_max_support_slices := support;
     c_num_scales := n_scales;
     c_scale_min := 11 / 100;
     c_scale_max := 256 |}.

(** The instance after construction and [fit]; [None] when the
    constructor raises. *)
Definition frozen (depth n_slices support : Z) : option ConvCharm :=
  let w := nets (Z.to_nat depth) (Z.to_nat (depth / n_slices)) in
  match init w (conf depth n_slices support 64) with
  | Ok m => Some (fit w m)
  | Err _ => None
  end.

Definition picture : image := [[[10; 20; 30]]].

Definition blank : ConvCharm :=
  {| lmbda := 0; num_scales := 0; num_slices := 0; slice_size := 0;
     max_support_slices := 0; scale_fn := fun i => i;
     analysis_transform := fun t => t;
     synthesis_transform := fun t => t;
     hyper_analysis_transform := fun t => t;
     hyper_synthesis_mean_scale_transform := fun t => t;
     cc_mean_transforms := []; cc_scale_transforms := [];
     hyperprior := []; em_z := None; em_y := None |}.

(** Ten slices of one channel, at most three support slices. *)
Definition model10 : ConvCharm :=
  match frozen 10 10 3 with
  | Some m => m
  | None => blank
  end.

(** What [compress] returns for [picture]. *)
Definition stream (m : ConvCharm) : bitstream :=
  match compress lib m picture with
  | Ok b => b
  | Err _ => {| x_shape := (0, 0); y_shape := (0, 0); z_shape := (0, 0);
                z_string := []; y_strings := [] |}
  end.

(** The default configuration: 320 channels cut into 10 slices of 32,
    at most 5 support slices. *)
Definition model320 : ConvCharm :=
  match frozen 320 10 5 with
  | Some m => m
  | None => blank
  end.

(** The channel counts of the two hyperprior contexts of each slice in
    [compress]. *)
Definition context_channels (m : ConvCharm) : list (nat * nat) :=
  match compress_context lib m picture with
  | Ok (_, _, _, ctx, y_slices) =>
      map (fun i => (channels (context_slice m i (latent_means ctx)),
                     channels (context_slice m i (latent_scales ctx))))
          (seq 0 (length y_slices))
  | Err _ => []
  end.

(** The ten-slice instance as the constructor leaves it, before
    [fit]. *)
Definition fresh10 : ConvCharm :=
  match init (nets 10 1) (conf 10 10 3 64) with
  | Ok m => m
  | Err _ => blank
  end.

(** A tuple with one string missing. *)
Definition short_stream (m : ConvCharm) : bitstream :=
  let b := stream m in
  {| x_shape := x_shape b; y_shape := y_shape b; z_shape := z_shape b;
     z_string := z_string b; y_strings := firstn 9 (y_strings b) |}.

(** The default configuration with a single scale, as constructed. *)
Definition single_scale : ConvCharm :=
  match init (nets 320 32) (conf 320 10 5 1) with
  | Ok m => m
  | Err _ => blank
  end.

(** The context [decompress] loops in for the tuple [b]. *)
Definition context (m : ConvCharm) (b : bitstream) : slice_context :=
  match decompress_context lib m b with
  | Ok ctx => ctx
  | Err _ => {| latent_means := []; latent_scales := [];
                latent_shape := (0, 0) |}
  end.

Definition slices_from (first : Z) (n : nat) : list tensor :=
  map (fun i => one_pixel [inject_Z (first + Z.of_nat i)]) (seq 0 n).

End Toy.

(** A loop is causal when the slice it decodes at an index is the same for
    any two inputs that agree up to that index. *)
Definition causal {X O : Type}
  (loop : list X -> result (list tensor * list O)) : Prop :=
  forall (i : nat) (xs xs' : list X) ys os ys' os',
    loop xs = Ok (ys, os) ->
    loop xs' = Ok (ys', os') ->
    (i < length xs)%nat -> (i < length xs')%nat ->
    firstn (S i) xs = firstn (S i) xs' ->
    nth_error ys i = nth_error ys' i.

(** A loop is stepwise when the slice it decodes at an index is what [step]
    returns for the item at that index and the slices decoded before. *)
Definition stepwise {X O : Type}
  (step : nat -> X -> list tensor -> result (tensor * O))
  (loop : list X -> result (list tensor * list O)) : Prop :=
  forall (i : nat) (x : X) (xs : list X) ys os,
    loop xs = Ok (ys, os) ->
    nth_error xs i = Some x ->
    exists t o, step i x (firstn i ys) = Ok (t, o) /\
                nth_error ys i = Some t.

(** The errors of a call made in the wrong phase of the lifecycle: the
    entropy model is not there yet, or it cannot code. *)
Definition lifecycle_error (e : exn) : bool :=
  match e with
  | AttributeError | RuntimeError => true
  | _ => false
  end.

(** A result that is not a lifecycle error. *)
Definition in_phase {A : Type} (r : result A) : Prop :=
  match r with
  | Ok _ => True
  | Err e => lifecycle_error e = false
  end.

(** The scale mapping in the words of the specification, on real
    numbers: [exp(log(scale_min) + i * (log(scale_max) - log(scale_min)) /
    (num_scales - 1))]. *)
Definition scale_fn_spec (n_scales : Z) (scale_min scale_max i : R) : R :=
  exp (ln scale_min
       + i * (ln scale_max - ln scale_min) / (IZR n_scales - 1)).

(** A configuration with another number of scales. *)
Definition with_num_scales (n : Z) (c : config) : config :=
  {| c_lmbda := c_lmbda c;
     c_num_filters := c_num_filters c;
     c_latent_depth := c_latent_depth c;
     c_hyperprior_depth := c_hyperprior_depth c;
     c_num_slices := c_num_slices c;
     c_max_support_slices := c_max_support_slices c;
     c_num_scales := n;
     c_scale_min := c_scale_min c;
     c_scale_max := c_scale_max c |}.

(** Every entry of an image is a value of an 8-bit unsigned integer. *)
Definition is_uint8 (im : image) : Prop :=
  Forall (Forall (Forall (fun v => 0 <= v <= 255))) im.

(** An image is no larger than a spatial shape. *)
Definition fits (hw : shape2) (im : image) : Prop :=
  Z.of_nat (length im) <= fst hw /\
  Forall (fun row => Z.of_nat (length row) <= snd hw) im.

(** One forward pass of the model: the support it gathers on entering each
    iteration of its loop, and the slices it has decoded at the end. *)
Inductive forward_pass (lib : tfc) (m : ConvCharm)
  : (nat -> result (list tensor)) -> list tensor -> Prop :=
| pass_call (x : tensor) (training : bool) ys x_hat :
    call_forward lib m x training = Ok (ys, x_hat) ->
    forward_pass lib m (call_support lib m x training) ys
| pass_compress (x : image) out ys :
    compress_trace lib m x = Ok (out, ys) ->
    forward_pass lib m (compress_support lib m x) ys
| pass_decompress (b : bitstream) pixels y_hat ys :
    decompress_trace lib m b = Ok (pixels, y_hat, ys) ->
    forward_pass lib m (decompress_support lib m b) ys.

(* ------------------------------------------------------------------ *)
(** ** Training and evaluation *)

(** [scheduler(epoch, lr)], lines 441-445; [1e-1] is one tenth. *)
Definition scheduler (epoch : Z) (lr : Q) : Q :=
  if epoch =? 1800 then (lr * (1 # 10))%Q else lr.

(** The learning rate left by [LearningRateScheduler(scheduler)] in
    [model.fit] once epochs [0 .. epochs-1] have begun: at the start of
    each epoch the callback replaces the rate by [scheduler(epoch, rate)]. *)
Definition learning_rate (epochs : nat) (lr0 : Q) : Q :=
  fold_left (fun lr epoch => scheduler (Z.of_nat epoch) lr) (seq 0 epochs) lr0.

(** Lines 505-512 of [evaluate]: one image through [model.compress] and
    [model.decompress] on the tuple it returned. *)
Definition evaluate_image (lib : tfc) (m : ConvCharm) (x : image)
  : result (image * tensor) :=
  tensors <- compress lib m x ;;
  decompress_fn lib m tensors.


(** The number of channels of hyperprior context left for slice [i] of
    size [size] in a tensor of [c] channels. *)
Definition context_width (c size : Z) (i : nat) : nat :=
  Z.to_nat (Z.min size (Z.max 0 (c - Z.of_nat i * size))).

(** Further instances of the ten-slice model. *)
Module Demo.

(** Every earlier slice is support. *)
Definition unbounded10 : ConvCharm :=
  match Toy.frozen 10 10 (-1) with
  | Some m => m
  | None => Toy.blank
  end.



(** The tuple of [m] with the string of slice 9 replaced. *)
Definition other_last (m : ConvCharm) : bitstream :=
  let b := Toy.stream m in
  {| x_shape := x_shape b; y_shape := y_shape b; z_shape := z_shape b;
     z_string := z_string b;
     y_strings := firstn 9 (y_strings b) ++ [[x00]] |}.

(** The default configuration as constructed, and an output of the
    hyper-synthesis transform for it: one pixel of 320 channels. *)
Definition fresh320 : ConvCharm :=
  match init (Toy.nets 320 32) (Toy.conf 320 10 5 64) with
  | Ok m => m
  | Err _ => Toy.blank
  end.

Definition latent320 : tensor := Toy.one_pixel (repeat 0%Q 320).

(** The ten-slice configuration with [scale_min = 0]. *)
Definition zero_min_conf : config :=
  {| c_lmbda := 1 # 100;
     c_num_filters := 192;
     c_latent_depth := 10;
     c_hyperprior_depth := 192;
     c_num_slices := 10;
     c_max_support_slices := 3;
     c_num_scales := 64;
     c_scale_min := 0;
     c_scale_max := 256 |}.

Definition zero_min : ConvCharm :=
  match init (Toy.nets 10 1) zero_min_conf with
  | Ok m => m
  | Err _ => Toy.blank
  end.

(** A synthesis output of two by two pixels, one of them out of range on
    each side. *)
Definition output : tensor :=
  [[[[7 # 2; 300; -4]; [5 # 2; 0; 255]]; [[1 # 3; 2; 3]; [4; 5; 6]]]]%Q.

End Demo.

(* ------------------------------------------------------------------ *)
(** ** The Swin transformer: the plan of its layers

    [src/layers/swins/models.py].  The constructor computes, with integer
    arithmetic, the arguments of one [BasicLayer] per entry of [depths];
    the layers themselves are built from them elsewhere. *)

Module Swin.

(** An argument given as one value or as a sequence of them. *)
Inductive one_or_many (A : Type) : Type :=
| One (a : A)
| Many (l : list A).

Arguments One {A} a.
Arguments Many {A} l.

(** [to_ntuple(n)(x)], lines 13-19. *)
Definition to_ntuple {A : Type} (n : nat) (x : one_or_many A) : list A :=
  match x with
  | Many l => l
  | One a => repeat a n
  end.

(** [sum(l)]. *)
Definition py_sum (l : list Z) : Z := fold_left Z.add l 0.

(** The arguments of [BasicLayer] computed by the constructor. *)
Record layer_args : Type := {
  dim : Z;
  out_dim : option Z;
  input_resolution : Z * Z;
  depth : Z;
  heads : Z;
  head_dim : option Z;
  window_size : Z;
  mlp_ratio : Q;
  drop_path : list Q;
  downsample : bool
}.

(** The attributes set by the constructor. *)
Record SwinTransformer : Type := {
  img_size : list Z;
  patch_size : list Z;
  num_layers : nat;
  num_features : Z;
  patch_grid : Z * Z;
  num_patches : Z;
  embed_dim : list Z;
  swin_layers : list layer_args
}.

(** Lines 71-80: a size given as one integer is a pair of it. *)
Definition as_pair (x : one_or_many Z) : list Z :=
  match x with
  | Many l => l
  | One a => [a; a]
  end.

(** Line 86: [int(embed_dim * 2 ** (num_layers - 1))]; the power is the
    float one half when there is no layer, and [int] truncates. *)
Definition features (embed : Z) (n_layers : nat) : Z :=
  match n_layers with
  | O => Z.quot embed 2
  | S k => embed * 2 ^ Z.of_nat k
  end.

(** Lines 110-113. *)
Definition grid (img patch : list Z) : result (Z * Z) :=
  i0 <- py_index img 0 ;;
  p0 <- py_index patch 0 ;;
  g0 <- floordiv i0 p0 ;;
  i1 <- py_index img 1 ;;
  p1 <- py_index patch 1 ;;
  g1 <- floordiv i1 p1 ;;
  Ok (g0, g1).

(** Lines 128-131: the widths of the stages. *)
Definition stage_dims (embed : Z) (n_layers : nat) : list Z :=
  map (fun i => embed * 2 ^ Z.of_nat i) (seq 0 n_layers).

(** Line 132: [self.embed_dim[1:] + [None]]. *)
Definition stage_out_dims (dims : list Z) : list (option Z) :=
  map Some (tl dims) ++ [None].

(** Lines 141-160: the arguments of layer [i]. *)
Definition layer (dims : list Z) (outs : list (option Z)) (pg : Z * Z)
  (depths num_heads : list Z) (head_dims : list (option Z))
  (windows : list Z) (ratios : list Q) (dpr : list Q) (n_layers : nat)
  (i : nat) : result layer_args :=
  d <- py_index dims i ;;
  o <- py_index outs i ;;
  let res := (fst pg / 2 ^ Z.of_nat i, snd pg / 2 ^ Z.of_nat i) in
  dp <- py_index depths i ;;
  h <- py_index num_heads i ;;
  hd <- py_index head_dims i ;;
  ws <- py_index windows i ;;
  r <- py_index ratios i ;;
  let rates := py_slice (py_sum (py_upto (Z.of_nat i) depths))
                        (py_sum (py_upto (Z.of_nat i + 1) depths)) dpr in
  Ok {| dim := d; out_dim := o; input_resolution := res; depth := dp;
        heads := h; head_dim := hd; window_size := ws; mlp_ratio := r;
        drop_path := rates;
        downsample := Z.of_nat i <? Z.of_nat n_layers - 1 |}.

(** [SwinTransformer.__init__], lines 47-167, for an integer [patch_size]
    and [embed_dim]; [dpr] is the list of [sum(depths)] rates returned by
    [tf.linspace]. *)
Definition init (img : one_or_many Z) (patch embed : Z)
  (depths num_heads : list Z) (head_dims : one_or_many (option Z))
  (windows : one_or_many Z) (ratios : one_or_many Q) (dpr : list Q)
  : result SwinTransformer :=
  let img := as_pair img in
  let patch := [patch; patch] in
  let n := length depths in
  let feats := features embed n in
  pg <- grid img patch ;;
  let dims := stage_dims embed n in
  let outs := stage_out_dims dims in
  layers <- comprehension
              (layer dims outs pg depths num_heads (to_ntuple n head_dims)
                     (to_ntuple n windows) (to_ntuple n ratios) dpr n)
              (seq 0 n) ;;
  Ok {| img_size := img; patch_size := patch; num_layers := n;
        num_features := feats; patch_grid := pg;
        num_patches := fst pg * snd pg; embed_dim := dims;
        swin_layers := layers |}.

(** The defaults of the constructor: images of 224 pixels, patches of 4,
    96 channels, stages of 2, 2, 6 and 2 blocks, twelve drop-path rates
    from 0 to 0.1. *)
Definition default_dpr : list Q :=
  map (fun j => ((1 # 10) * inject_Z (Z.of_nat j) / 11)%Q) (seq 0 12).

Definition default : result SwinTransformer :=
  init (One 224) 4 96 [2; 2; 6; 2] [3; 6; 12; 24] (One None) (One 7)
       (One 4%Q) default_dpr.

Definition default_net : SwinTransformer :=
  match default with
  | Ok net => net
  | Err _ => {| img_size := []; patch_size := []; num_layers := 0;
                num_features := 0; patch_grid := (0, 0); num_patches := 0;
                embed_dim := []; swin_layers := [] |}
  end.

(** Layer [i] of the default transformer. *)
Definition default_layer (i : nat) : layer_args :=
  nth i (swin_layers default_net)
      {| dim := 0; out_dim := None; input_resolution := (0, 0); depth := 0;
         heads := 0; head_dim := None; window_size := 0; mlp_ratio := 0;
         drop_path := []; downsample := false |}.

End Swin.

(* ================================================================== *)
(** * Properties *)

(* ------------------------------------------------------------------ *)
(** ** Python slices of lists *)

Lemma py_upto_firstn (A : Type) (k : Z) (l : list A) :
  0 <= k -> py_upto k l = firstn (Z.to_nat k) l.
Proof.
  intros Hk. unfold py_upto, py_slice, py_bound.
  assert (H0 : (0 <? 0) = false) by reflexivity. rewrite H0.
  destruct (k <? 0) eqn:E; [apply Z.ltb_lt in E; lia|].
  rewrite (Z.min_l 0) by lia. simpl skipn. rewrite Z.sub_0_r.
  destruct (Z.le_gt_cases k (Z.of_nat (length l))) as [Hle|Hgt].
  - rewrite Z.min_l by lia. reflexivity.
  - rewrite Z.min_r by lia. rewrite Nat2Z.id.
    rewrite firstn_all. symmetry. apply firstn_all2. lia.
Qed.

Lemma py_slice_from0 (A : Type) (k : Z) (l : list A) :
  0 <= k -> py_slice 0 k l = firstn (Z.to_nat k) l.
Proof. apply py_upto_firstn. Qed.

Lemma py_slice_beyond (A : Type) (start stop : Z) (l : list A) :
  Z.of_nat (length l) <= start -> 0 <= stop -> py_slice start stop l = [].
Proof.
  intros Hs He. unfold py_slice, py_bound.
  destruct (start <? 0) eqn:E1; [apply Z.ltb_lt in E1; lia|].
  destruct (stop <? 0) eqn:E2; [apply Z.ltb_lt in E2; lia|].
  rewrite (Z.min_r start) by lia.
  replace (Z.to_nat (Z.min stop (Z.of_nat (length l)) - Z.of_nat (length l)))
    with 0%nat by lia.
  reflexivity.
Qed.

Lemma nth_error_firstn_S (A : Type) (l : list A) (n : nat) :
  nth_error (firstn (S n) l) n = nth_error l n.
Proof.
  revert l. induction n as [|n IH]; intros [|a l]; simpl; auto.
  apply (IH l).
Qed.

(* ------------------------------------------------------------------ *)
(** ** The loop *)

Lemma bind_ok (A B : Type) (r : result A) (k : A -> result B) (b : B) :
  bind r k = Ok b -> exists a, r = Ok a /\ k a = Ok b.
Proof. destruct r as [a|e]; simpl; intros H; [eauto | discriminate]. Qed.

Ltac unbind H :=
  let a := fresh "a" in
  let Ha := fresh "Ha" in
  apply bind_ok in H; destruct H as (a & Ha & H).

Section LoopFacts.

Variables X O : Type.
Variable step : nat -> X -> list tensor -> result (tensor * O).

(** Running the loop on [xs1 ++ xs2] is running it on [xs1] and going on
    with [xs2] from the state reached. *)
Lemma slice_loop_app (xs1 xs2 : list X) :
  forall (i : nat) (acc : list tensor) (outs : list O),
    slice_loop step i (xs1 ++ xs2) acc outs =
    bind (slice_loop step i xs1 acc outs)
         (fun st => slice_loop step (i + length xs1) xs2 (fst st) (snd st)).
Proof.
  induction xs1 as [|x xs1 IH]; intros i acc outs; simpl.
  - rewrite Nat.add_0_r. reflexivity.
  - destruct (step i x acc) as [[t o]|e]; simpl; [|reflexivity].
    rewrite IH. replace (S i + length xs1)%nat with (i + S (length xs1))%nat
      by lia. reflexivity.
Qed.

(** The loop only appends, one slice and one output per item. *)
Lemma slice_loop_extends (xs : list X) :
  forall (i : nat) (acc : list tensor) (outs : list O) ys os,
    slice_loop step i xs acc outs = Ok (ys, os) ->
    exists ys' os', ys = acc ++ ys' /\ os = outs ++ os' /\
                    length ys' = length xs /\ length os' = length xs.
Proof.
  induction xs as [|x xs IH]; intros i acc outs ys os H; simpl in H.
  - inversion H; subst. exists [], []. rewrite !app_nil_r. auto.
  - destruct (step i x acc) as [[t o]|e]; simpl in H; [|discriminate].
    apply IH in H. destruct H as (ys' & os' & -> & -> & Hl & Hl').
    exists (t :: ys'), (o :: os'). rewrite <- !app_assoc. simpl.
    repeat split; auto.
Qed.

(** The state on entering iteration [n] is the first [n] slices of the
    final list. *)
Lemma slice_loop_prefix (xs : list X) (n : nat) ys os :
  slice_loop step 0 xs [] [] = Ok (ys, os) ->
  (n <= length xs)%nat ->
  slice_loop step 0 (firstn n xs) [] [] = Ok (firstn n ys, firstn n os).
Proof.
  intros H Hn.
  rewrite <- (firstn_skipn n xs) in H. rewrite slice_loop_app in H.
  destruct (slice_loop step 0 (firstn n xs) [] []) as [[a o]|e] eqn:E;
    simpl in H; [|discriminate].
  destruct (slice_loop_extends _ _ _ _ E) as (a' & o' & -> & -> & La & Lo).
  destruct (slice_loop_extends _ _ _ _ H) as (r & ro & -> & -> & _ & _).
  simpl. rewrite length_firstn in La, Lo.
  rewrite Nat.min_l in La, Lo by lia.
  rewrite !firstn_app, <- La, firstn_all, Nat.sub_diag. simpl.
  rewrite app_nil_r. f_equal. f_equal.
  rewrite La, <- Lo, firstn_all, Nat.sub_diag. simpl.
  now rewrite app_nil_r.
Qed.

(** Every decoded slice is the one [step] computes from the slices
    before it. *)
Lemma slice_loop_nth (xs : list X) ys os (n : nat) (x : X) :
  slice_loop step 0 xs [] [] = Ok (ys, os) ->
  nth_error xs n = Some x ->
  exists t o, step n x (firstn n ys) = Ok (t, o) /\
              nth_error ys n = Some t /\ nth_error os n = Some o.
Proof.
  intros H Hx.
  assert (Hn : (n < length xs)%nat) by (apply nth_error_Some; congruence).
  pose proof (slice_loop_prefix xs (n:=S n) H ltac:(lia)) as HS.
  pose proof (slice_loop_prefix xs (n:=n) H ltac:(lia)) as Hp.
  assert (Hsplit : firstn (S n) xs = firstn n xs ++ [x]).
  { clear - Hx. revert xs Hx. induction n as [|n IH]; intros [|a xs] Hx;
      simpl in *; try discriminate.
    - now inversion Hx.
    - f_equal. now apply IH. }
  rewrite Hsplit, slice_loop_app, Hp in HS. simpl in HS.
  rewrite length_firstn, Nat.min_l in HS by lia.
  destruct (step n x (firstn n ys)) as [[t o]|e] eqn:E; simpl in HS;
    [|discriminate].
  exists t, o. split; [reflexivity|].
  inversion HS as [[Hy' Ho']].
  assert (Hy : firstn n ys ++ [t] = firstn (S n) ys) by exact Hy'.
  assert (Ho : firstn n os ++ [o] = firstn (S n) os) by exact Ho'.
  clear Hy' Ho'.
  destruct (slice_loop_extends _ _ _ _ H) as (r & ro & Hr & Hro & Lr & Lro).
  simpl in Hr, Hro. subst r ro.
  assert (Ly : length (firstn n ys) = n)
    by (rewrite length_firstn; lia).
  assert (Lo : length (firstn n os) = n)
    by (rewrite length_firstn; lia).
  split.
  - rewrite <- (nth_error_firstn_S ys n), <- Hy.
    rewrite nth_error_app2 by lia. rewrite Ly, Nat.sub_diag. reflexivity.
  - rewrite <- (nth_error_firstn_S os n), <- Ho.
    rewrite nth_error_app2 by lia. rewrite Lo, Nat.sub_diag. reflexivity.
Qed.

(** Two runs on lists that agree up to index [n] decode the same slices
    up to index [n]. *)
Lemma slice_loop_causal (xs xs' : list X) ys os ys' os' (n : nat) :
  slice_loop step 0 xs [] [] = Ok (ys, os) ->
  slice_loop step 0 xs' [] [] = Ok (ys', os') ->
  (n < length xs)%nat -> (n < length xs')%nat ->
  firstn (S n) xs = firstn (S n) xs' ->
  firstn (S n) ys = firstn (S n) ys' /\ nth_error ys n = nth_error ys' n.
Proof.
  intros H H' Hn Hn' Heq.
  pose proof (slice_loop_prefix xs (n:=S n) H ltac:(lia)) as P.
  pose proof (slice_loop_prefix xs' (n:=S n) H' ltac:(lia)) as P'.
  rewrite Heq in P. rewrite P in P'.
  assert (Hy : firstn (S n) ys = firstn (S n) ys') by congruence.
  split; [exact Hy|].
  rewrite <- (nth_error_firstn_S ys n), <- (nth_error_firstn_S ys' n).
  now rewrite Hy.
Qed.

End LoopFacts.

(* ------------------------------------------------------------------ *)
(** ** The support of a slice *)

Lemma support_slices_prefix (m : ConvCharm) (ys : list tensor) (i : nat) :
  0 <= max_support_slices m ->
  support_slices m (firstn i ys) =
  py_slice 0 (Z.min (Z.of_nat i) (max_support_slices m)) ys.
Proof.
  intros Hk. unfold support_slices.
  destruct (max_support_slices m <? 0) eqn:E; [apply Z.ltb_lt in E; lia|].
  rewrite py_upto_firstn by lia. rewrite py_slice_from0 by lia.
  rewrite firstn_firstn. f_equal. lia.
Qed.

Lemma support_slices_unbounded (m : ConvCharm) (ys : list tensor) :
  max_support_slices m < 0 -> support_slices m ys = ys.
Proof.
  intros Hk. unfold support_slices.
  destruct (max_support_slices m <? 0) eqn:E; [reflexivity|].
  apply Z.ltb_ge in E. lia.
Qed.

(** In each pass, the list [y_hat_slices] on entering iteration [i] is the
    first [i] slices of the final list. *)
Lemma forward_pass_state (lib : tfc) (m : ConvCharm) support ys (i : nat) :
  forward_pass lib m support ys ->
  (i < length ys)%nat ->
  support i = Ok (support_slices m (firstn i ys)).
Proof.
  intros [x training ys' x_hat H | x out ys' H | b pixels y_hat ys' H] Hi.
  - unfold call_forward in H. unfold call_support.
    destruct (call_context lib m x) as [[ctx y_slices]|e]; simpl in *;
      [|discriminate].
    destruct (call_loop lib m ctx y_slices) as [[yh os]|e] eqn:L; simpl in H;
      [|discriminate].
    unbind H. inversion H; subst ys' x_hat. clear H.
    unfold call_loop in *.
    destruct (slice_loop_extends _ _ _ _ _ L) as (r & ro & Hr & _ & Lr & _).
    simpl in Hr. subst r.
    erewrite slice_loop_prefix by (first [exact L | lia]). reflexivity.
  - unfold compress_trace in H. unfold compress_support.
    destruct (compress_context lib m x) as [[[[[xs zs] zstr] ctx] y_slices]|e];
      simpl in *; [|discriminate].
    destruct (compress_loop lib m ctx y_slices) as [[yh os]|e] eqn:L;
      simpl in H; [|discriminate].
    inversion H; subst out ys'. clear H.
    unfold compress_loop in *.
    destruct (slice_loop_extends _ _ _ _ _ L) as (r & ro & Hr & _ & Lr & _).
    simpl in Hr. subst r.
    erewrite slice_loop_prefix by (first [exact L | lia]). reflexivity.
  - unfold decompress_trace in H. unfold decompress_support.
    destruct (decompress_context lib m b) as [ctx|e]; simpl in *;
      [|discriminate].
    destruct (decompress_loop lib m ctx (y_strings b)) as [[yh os]|e] eqn:L;
      simpl in H; [|discriminate].
    unbind H. unbind H. inversion H; subst pixels y_hat ys'. clear H.
    unfold decompress_loop in *.
    destruct (slice_loop_extends _ _ _ _ _ L) as (r & ro & Hr & _ & Lr & _).
    simpl in Hr. subst r.
    erewrite slice_loop_prefix by (first [exact L | lia]). reflexivity.
Qed.

(** C1 (as amended).  In every forward pass ([call], [compress] or
    [decompress]) with [max_support_slices = k >= 0], the support of slice
    [i] is the earliest [min(i, k)] decoded slices,
    [y_hat_slices[0 : min(i, k)]]. *)
Theorem support_is_earliest_slices
  (lib : tfc) (m : ConvCharm) support (ys : list tensor) (i : nat) :
  0 <= max_support_slices m ->
  forward_pass lib m support ys ->
  (i < length ys)%nat ->
  support i =
  Ok (py_slice 0 (Z.min (Z.of_nat i) (max_support_slices m)) ys).
Proof.
  intros Hk Hp Hi.
  rewrite (forward_pass_state Hp Hi).
  now rewrite support_slices_prefix.
Qed.

Lemma toy_model10_run :
  decompress_trace Toy.lib Toy.model10 (Toy.stream Toy.model10) =
  Ok ([[[60; 61; 62]]],
      Toy.one_pixel (map (fun i => inject_Z (60 + Z.of_nat i)) (seq 0 10)),
      Toy.slices_from 60 10).
Proof. vm_compute. reflexivity. Qed.

(** With 10 slices and [max_support_slices = 3], the support of slice 9 is
    slices 0, 1 and 2. *)
Lemma support_is_earliest_slices_witness :
  decompress_support Toy.lib Toy.model10 (Toy.stream Toy.model10) 9 =
  Ok (Toy.slices_from 60 3).
Proof.
  assert (Hk : 0 <= max_support_slices Toy.model10) by (vm_compute; discriminate).
  assert (Hi : (9 < length (Toy.slices_from 60 10))%nat) by (vm_compute; lia).
  exact (support_is_earliest_slices Hk
           (pass_decompress Toy.lib Toy.model10 _ toy_model10_run) Hi).
Defined.

(** C1 as stated fails: with 10 slices and [max_support_slices = 3], the
    support of slice 9 in [decompress] is not slices 6, 7 and 8, the most
    recent three. *)
Lemma support_is_not_most_recent :
  max_support_slices Toy.model10 = 3 /\
  num_slices Toy.model10 = 10 /\
  py_slice (Z.max 0 (9 - 3)) 9 (Toy.slices_from 60 10) = Toy.slices_from 66 3 /\
  decompress_support Toy.lib Toy.model10 (Toy.stream Toy.model10) 9 <>
  Ok (py_slice (Z.max 0 (9 - 3)) 9 (Toy.slices_from 60 10)).
Proof.
  repeat split; try (vm_compute; reflexivity).
  vm_compute. intros H. discriminate H.
Qed.

(* ------------------------------------------------------------------ *)
(** ** The hyperprior context of a slice *)

Lemma py_slice_nil (A : Type) (start stop : Z) :
  py_slice start stop (@nil A) = [].
Proof. unfold py_slice. rewrite skipn_nil. apply firstn_nil. Qed.

Lemma channels_slice_channels (start stop : Z) (t : tensor) :
  channels (slice_channels start stop t) =
  length (py_slice start stop (hd [] (hd [] (hd [] t)))).
Proof.
  unfold channels, slice_channels, map_pixels.
  destruct t as [|[|[|p row] im] t]; simpl; try now rewrite py_slice_nil.
  reflexivity.
Qed.

Lemma tf_split2_channels (t a b : tensor) :
  tf_split2 t = Ok (a, b) ->
  Z.of_nat (channels a) = Z.of_nat (channels t) / 2 /\
  2 * (Z.of_nat (channels t) / 2) = Z.of_nat (channels t).
Proof.
  unfold tf_split2, tf_split.
  change (2 <? 1) with false. cbv iota.
  destruct (Z.of_nat (channels t) mod 2 =? 0) eqn:E;
    cbn [negb bind]; [|discriminate].
  apply Z.eqb_eq in E.
  change (py_range 2) with [0%nat; 1%nat]. cbn [map].
  intros H. inversion H; subst a b. clear H.
  pose proof (Z.div_mod (Z.of_nat (channels t)) 2 ltac:(lia)) as D.
  split; [|lia].
  rewrite channels_slice_channels. fold (channels t).
  rewrite py_slice_from0 by (apply Z.div_pos; lia).
  rewrite length_firstn. unfold channels in *. lia.
Qed.

(** When the output of the hyper-synthesis transform has the
    [num_slices * slice_size] channels of [y], the half of it kept as
    [latent_means] ends before the range of every slice of the upper half:
    those slices get no hyperprior context. *)
Lemma upper_half_loses_context (m : ConvCharm) (lms means scales : tensor)
  (i : nat) :
  Z.of_nat (channels lms) = num_slices m * slice_size m ->
  0 < slice_size m ->
  tf_split2 lms = Ok (means, scales) ->
  num_slices m <= 2 * Z.of_nat i ->
  channels (context_slice m i means) = 0%nat.
Proof.
  intros Hc Hs Hsplit Hi.
  destruct (tf_split2_channels _ Hsplit) as [Ha Hd].
  unfold context_slice. rewrite channels_slice_channels.
  rewrite py_slice_beyond; [reflexivity| |lia].
  fold (channels means). nia.
Qed.

(** C2 at the default configuration: [latent_depth = 320] and
    [num_slices = 10] give slices of 32 channels, and of the ten slices only
    the first five get the 32 channels of hyperprior context; for slices 5
    to 9 [latent_means_slice] and [latent_scales_slice] are empty. *)
Theorem upper_slices_get_empty_context :
  num_slices Toy.model320 = 10 /\
  slice_size Toy.model320 = 32 /\
  Toy.context_channels Toy.model320 =
  [(32, 32); (32, 32); (32, 32); (32, 32); (32, 32);
   (0, 0); (0, 0); (0, 0); (0, 0); (0, 0)]%nat.
Proof. vm_compute. repeat split. Qed.

(* ------------------------------------------------------------------ *)
(** ** [decompress] after [compress] *)

Lemma tf_split_length (t : tensor) (num : Z) (parts : list tensor) :
  tf_split t num = Ok parts -> Z.of_nat (length parts) = num /\ 1 <= num.
Proof.
  unfold tf_split.
  destruct (num <? 1) eqn:E; [discriminate|]. apply Z.ltb_ge in E.
  destruct (negb _); [discriminate|].
  intros H. inversion H. unfold py_range.
  rewrite length_map, length_seq. lia.
Qed.

(** One iteration of [decompress] on the string written by the same
    iteration of [compress] decodes the slice [compress] decoded. *)
Lemma decompress_step_after_compress_step (lib : tfc) (m : ConvCharm)
  (means scales : tensor) (shape : shape2) (i : nat) (y_slice : tensor)
  (acc : list tensor) (t : tensor) (s : bitstring) :
  compress_step lib m means scales shape i y_slice acc = Ok (t, s) ->
  decompress_step lib m means scales shape i s acc = Ok (t, tt).
Proof.
  unfold compress_step, decompress_step. intros H.
  destruct (slice_params m means scales shape i acc) as [[mu sigma]|e];
    cbn [bind] in *; [|discriminate].
  destruct (get_em_y m) as [em|e]; cbn [bind] in *; [|discriminate].
  destruct (em_y_compress lib em y_slice sigma mu) as [s'|e];
    cbn [bind] in *; [|discriminate].
  destruct (em_y_decompress lib em s' sigma mu) as [t'|e] eqn:D;
    cbn [bind] in *; [|discriminate].
  inversion H; subst t' s'. rewrite D. reflexivity.
Qed.

(** The loop of [decompress] on the strings written by the loop of
    [compress] ends with the same decoded slices. *)
Lemma decompress_loop_after_compress_loop (lib : tfc) (m : ConvCharm)
  (means scales : tensor) (shape : shape2) (y_slices : list tensor) :
  forall (i : nat) (acc : list tensor) (outs : list bitstring)
         (douts : list unit) ys os,
    slice_loop (compress_step lib m means scales shape) i y_slices acc outs
    = Ok (ys, os) ->
    exists us,
      slice_loop (decompress_step lib m means scales shape) i
                 (skipn (length outs) os) acc douts = Ok (ys, us).
Proof.
  induction y_slices as [|y rest IH]; intros i acc outs douts ys os H.
  - cbn in H. inversion H; subst. rewrite skipn_all. cbn. eauto.
  - cbn [slice_loop] in H.
    destruct (compress_step lib m means scales shape i y acc)
      as [[t s]|e] eqn:C; cbn [bind] in H; [|discriminate].
    destruct (slice_loop_extends _ _ _ _ _ H) as (r & os' & _ & Hos & _ & _).
    destruct (IH _ _ _ (douts ++ [tt]) _ _ H) as (us & Hus).
    exists us. subst os.
    rewrite length_app, skipn_app in Hus. cbn [length] in Hus.
    rewrite skipn_all2 in Hus by (rewrite length_app; cbn; lia).
    replace (length outs + 1 - length (outs ++ [s]))%nat with 0%nat in Hus
      by (rewrite length_app; cbn; lia).
    cbn [app skipn] in Hus.
    rewrite <- app_assoc, skipn_app, skipn_all, Nat.sub_diag.
    cbn [app skipn slice_loop].
    rewrite (decompress_step_after_compress_step _ _ _ _ _ _ _ _ C).
    exact Hus.
Qed.

(** The prelude of [decompress] on the tuple of [compress] rebuilds the
    context [compress] looped in. *)
Lemma decompress_context_after_compress (lib : tfc) (m : ConvCharm)
  (x : image) xs zs zstr ctx y_slices (strings : list bitstring) :
  compress_context lib m x = Ok (xs, zs, zstr, ctx, y_slices) ->
  length strings = length y_slices ->
  decompress_context lib m
    {| x_shape := xs; y_shape := latent_shape ctx; z_shape := zs;
       z_string := zstr; y_strings := strings |} = Ok ctx.
Proof.
  unfold compress_context, decompress_context. intros H Hlen.
  destruct (get_em_z m) as [em|e]; cbn [bind] in *; [|discriminate].
  destruct (em_z_compress lib em _) as [s|e]; cbn [bind] in H; [|discriminate].
  destruct (em_z_decompress lib em s _) as [z_hat|e] eqn:D;
    cbn [bind] in H; [|discriminate].
  destruct (tf_split2 _) as [[means scales]|e] eqn:S2; cbn [bind] in H;
    [|discriminate].
  destruct (tf_split _ (num_slices m)) as [parts|e] eqn:S; cbn [bind] in H;
    [|discriminate].
  inversion H; subst. clear H.
  apply tf_split_length in S. destruct S as [S _].
  cbn [y_strings z_string z_shape y_shape latent_shape].
  rewrite Hlen, S, Z.eqb_refl. cbn [py_assert bind].
  rewrite D. cbn [bind]. rewrite S2. reflexivity.
Qed.

(** C3.  On the tuple returned by [compress], [decompress] recomputes
    exactly the slices [compress] decoded while coding, and its pair is the
    one obtained from those slices: [compress] and [decompress] see
    identical support slices, so the round trip is determined by the
    strings. *)
Theorem decompress_recomputes_compress_slices
  (lib : tfc) (m : ConvCharm) (x : image) (out : bitstream)
  (ys : list tensor) :
  compress_trace lib m x = Ok (out, ys) ->
  decompress_trace lib m out =
    (y_hat <- tf_concat ys ;;
     pixels <- to_pixels (x_shape out) (synthesis_transform m y_hat) ;;
     Ok (pixels, y_hat, ys)) /\
  decompress_fn lib m out =
    (y_hat <- tf_concat ys ;;
     pixels <- to_pixels (x_shape out) (synthesis_transform m y_hat) ;;
     Ok (pixels, y_hat)).
Proof.
  unfold compress_trace. intros H.
  destruct (compress_context lib m x)
    as [[[[[xs zs] zstr] ctx] y_slices]|e] eqn:C; cbn [bind] in H;
    [|discriminate].
  destruct (compress_loop lib m ctx y_slices) as [[yh ystrs]|e] eqn:L;
    cbn [bind] in H; [|discriminate].
  inversion H; subst out ys. clear H.
  unfold compress_loop in L.
  destruct (slice_loop_extends _ _ _ _ _ L) as (r & os' & _ & Hos & _ & Ll).
  cbn [app] in Hos. subst os'.
  destruct (@decompress_loop_after_compress_loop
              lib m _ _ _ _ 0%nat [] [] [] _ _ L) as (us & Hus).
  cbn [length skipn] in Hus.
  assert (T : decompress_trace lib m
                {| x_shape := xs; y_shape := latent_shape ctx; z_shape := zs;
                   z_string := zstr; y_strings := ystrs |} =
              (y_hat <- tf_concat yh ;;
               pixels <- to_pixels xs (synthesis_transform m y_hat) ;;
               Ok (pixels, y_hat, yh))).
  { unfold decompress_trace.
    rewrite (decompress_context_after_compress _ _ _ _ C Ll).
    cbn [bind y_strings x_shape]. unfold decompress_loop.
    rewrite Hus. reflexivity. }
  split; [exact T|].
  unfold decompress_fn, decompress, check_signature. rewrite T.
  cbn [y_strings x_shape].
  pose proof C as C'. unfold compress_context in C'.
  destruct (get_em_z m) as [em|e]; cbn [bind] in C'; [|discriminate].
  destruct (em_z_compress lib em _) as [s|e]; cbn [bind] in C'; [|discriminate].
  destruct (em_z_decompress lib em s _) as [z_hat|e]; cbn [bind] in C';
    [|discriminate].
  destruct (tf_split2 _) as [[means scales]|e]; cbn [bind] in C';
    [|discriminate].
  destruct (tf_split _ (num_slices m)) as [parts|e] eqn:Sp; cbn [bind] in C';
    [|discriminate].
  inversion C'; subst. apply tf_split_length in Sp. destruct Sp as [Sp Sp1].
  replace (Z.of_nat (S (length ystrs))) with (Z.max 0 (num_slices m + 1))
    by lia.
  rewrite Z.eqb_refl. cbn [bind].
  destruct (tf_concat yh) as [y_hat|e]; cbn [bind]; [|reflexivity].
  destruct (to_pixels _ _) as [pixels|e]; reflexivity.
Qed.

Lemma toy_model10_compress :
  compress_trace Toy.lib Toy.model10 Toy.picture =
  Ok (Toy.stream Toy.model10, Toy.slices_from 60 10).
Proof. vm_compute. reflexivity. Qed.

(** The round trip on the ten-slice instance. *)
Lemma decompress_recomputes_compress_slices_witness :
  decompress_fn Toy.lib Toy.model10 (Toy.stream Toy.model10) =
  Ok ([[[60; 61; 62]]],
      Toy.one_pixel (map (fun i => inject_Z (60 + Z.of_nat i)) (seq 0 10))).
Proof.
  rewrite (proj2 (decompress_recomputes_compress_slices
                    Toy.lib Toy.model10 Toy.picture toy_model10_compress)).
  vm_compute. reflexivity.
Defined.

(* ------------------------------------------------------------------ *)
(** ** Causality *)

Lemma slice_loop_is_causal (X O : Type)
  (step : nat -> X -> list tensor -> result (tensor * O)) :
  causal (fun xs => slice_loop step 0 xs [] []).
Proof.
  intros i xs xs' ys os ys' os' H H' Hi Hi' Heq.
  exact (proj2 (@slice_loop_causal X O step xs xs' ys os ys' os' i
                  H H' Hi Hi' Heq)).
Qed.

Lemma slice_loop_is_stepwise (X O : Type)
  (step : nat -> X -> list tensor -> result (tensor * O)) :
  stepwise step (fun xs => slice_loop step 0 xs [] []).
Proof.
  intros i x xs ys os H Hx.
  destruct (@slice_loop_nth X O step xs ys os i x H Hx)
    as (t & o & Hs & Ht & _).
  eauto.
Qed.

(** C4.  In [call], [compress] and [decompress], with the hyperprior
    context fixed, the slice decoded at index [i] is the same for any two
    inputs that agree up to index [i], and it is computed from the item at
    index [i] and the slices decoded before it: the parameters [mu] and
    [sigma] of slice [i] are [slice_params] of the context and of slices
    [0..i-1]. *)
Theorem slices_are_causal (lib : tfc) (m : ConvCharm) (ctx : slice_context) :
  (causal (call_loop lib m ctx) /\
   stepwise (call_step lib m (call_em_y m) (latent_means ctx)
                       (latent_scales ctx) (latent_shape ctx))
            (call_loop lib m ctx)) /\
  (causal (compress_loop lib m ctx) /\
   stepwise (compress_step lib m (latent_means ctx) (latent_scales ctx)
                           (latent_shape ctx))
            (compress_loop lib m ctx)) /\
  (causal (decompress_loop lib m ctx) /\
   stepwise (decompress_step lib m (latent_means ctx) (latent_scales ctx)
                             (latent_shape ctx))
            (decompress_loop lib m ctx)).
Proof.
  repeat split;
    first [apply slice_loop_is_causal | apply slice_loop_is_stepwise].
Qed.

(** X6.  Two calls of [decompress] whose tuples differ only in the strings
    after index [i] decode the same slice at index [i]. *)
Lemma decompress_is_causal (lib : tfc) (m : ConvCharm) (b b' : bitstream)
  (i : nat) pixels y_hat ys pixels' y_hat' ys' :
  decompress_trace lib m b = Ok (pixels, y_hat, ys) ->
  decompress_trace lib m b' = Ok (pixels', y_hat', ys') ->
  z_string b = z_string b' -> z_shape b = z_shape b' ->
  y_shape b = y_shape b' ->
  firstn (S i) (y_strings b) = firstn (S i) (y_strings b') ->
  (Z.of_nat i < num_slices m) ->
  nth_error ys i = nth_error ys' i.
Proof.
  unfold decompress_trace. intros H H' Hz Hzs Hys Hpre Hi.
  assert (Hctx : forall c c', decompress_context lib m b = Ok c ->
                              decompress_context lib m b' = Ok c' ->
                              c = c' /\
                              Z.of_nat (length (y_strings b)) = num_slices m /\
                              Z.of_nat (length (y_strings b')) = num_slices m).
  { unfold decompress_context. rewrite <- Hz, <- Hzs, <- Hys.
    intros c c' Hc Hc'.
    destruct (Z.of_nat (length (y_strings b)) =? num_slices m) eqn:E;
      cbn [py_assert bind] in Hc; [|discriminate].
    destruct (Z.of_nat (length (y_strings b')) =? num_slices m) eqn:E';
      cbn [py_assert bind] in Hc'; [|discriminate].
    apply Z.eqb_eq in E, E'. split; [congruence|auto]. }
  destruct (decompress_context lib m b) as [c|e]; cbn [bind] in H;
    [|discriminate].
  destruct (decompress_context lib m b') as [c'|e]; cbn [bind] in H';
    [|discriminate].
  destruct (Hctx c c' eq_refl eq_refl) as (<- & Hl & Hl').
  destruct (decompress_loop lib m c (y_strings b)) as [[yh os]|e] eqn:L;
    cbn [bind] in H; [|discriminate].
  destruct (decompress_loop lib m c (y_strings b')) as [[yh' os']|e] eqn:L';
    cbn [bind] in H'; [|discriminate].
  unbind H. unbind H. unbind H'. unbind H'.
  inversion H; inversion H'; subst.
  unfold decompress_loop in L, L'.
  pose proof (@slice_loop_is_causal _ _
                (decompress_step lib m (latent_means c) (latent_scales c)
                                 (latent_shape c))) as Hc.
  apply (Hc i _ _ _ _ _ _ L L'); [lia | lia | exact Hpre].
Qed.

Lemma toy_model10_loop :
  decompress_loop Toy.lib Toy.model10
    (Toy.context Toy.model10 (Toy.stream Toy.model10))
    (y_strings (Toy.stream Toy.model10)) =
  Ok (Toy.slices_from 60 10, repeat tt 10).
Proof. vm_compute. reflexivity. Qed.

Lemma toy_model10_loop_changed :
  decompress_loop Toy.lib Toy.model10
    (Toy.context Toy.model10 (Toy.stream Toy.model10))
    (firstn 9 (y_strings (Toy.stream Toy.model10)) ++ [[x00]]) =
  Ok (Toy.slices_from 60 9 ++ [Toy.one_pixel [3%Q]], repeat tt 10).
Proof. vm_compute. reflexivity. Qed.

(** Changing the string of slice 9 leaves the decoded slice 8 as it was. *)
Lemma slices_are_causal_witness :
  nth_error (Toy.slices_from 60 10) 8 =
  nth_error (Toy.slices_from 60 9 ++ [Toy.one_pixel [3%Q]]) 8.
Proof.
  refine (proj1 (proj2 (proj2
            (slices_are_causal Toy.lib Toy.model10
               (Toy.context Toy.model10 (Toy.stream Toy.model10)))))
            8%nat _ _ _ _ _ _ toy_model10_loop toy_model10_loop_changed
            _ _ _);
    vm_compute; first [reflexivity | lia].
Defined.

(* ------------------------------------------------------------------ *)
(** ** Construction *)

Lemma floordiv_ok (a b : Z) : b <> 0 -> floordiv a b = Ok (a / b).
Proof.
  intros Hb. unfold floordiv.
  destruct (b =? 0) eqn:E; [apply Z.eqb_eq in E; contradiction|reflexivity].
Qed.

Lemma divide_iff_floordiv (a b : Z) :
  b <> 0 -> ((a / b) * b =? a) = true <-> (b | a).
Proof.
  intros Hb. rewrite Z.eqb_eq. split.
  - intros H. exists (a / b). lia.
  - intros [q ->]. rewrite Z.div_mul by assumption. reflexivity.
Qed.

Lemma SliceTransform_not_dividing (a b : Z) (f : tensor -> tensor) :
  b <> 0 -> ~ (b | a) -> SliceTransform a b f = Err ValueError.
Proof.
  intros Hb Hd. unfold SliceTransform. rewrite floordiv_ok by assumption.
  cbn [bind].
  destruct (a / b * b =? a) eqn:E; [|reflexivity].
  apply divide_iff_floordiv in E; [contradiction|assumption].
Qed.

Lemma SliceTransform_ok (a b : Z) (f g : tensor -> tensor) :
  SliceTransform a b f = Ok g -> b <> 0 /\ a = b * (a / b) /\ g = f.
Proof.
  unfold SliceTransform, floordiv.
  destruct (b =? 0) eqn:E; cbn [bind]; [discriminate|].
  apply Z.eqb_neq in E.
  destruct (a / b * b =? a) eqn:E'; cbn [negb]; [|discriminate].
  apply Z.eqb_eq in E'. intros H. inversion H. repeat split; auto. lia.
Qed.

Lemma py_range_pos (n : Z) :
  1 <= n -> py_range n = 0%nat :: seq 1 (Z.to_nat (n - 1)).
Proof.
  intros Hn. unfold py_range.
  replace (Z.to_nat n) with (S (Z.to_nat (n - 1))) by lia. reflexivity.
Qed.

Lemma py_range_neg (n : Z) : n <= 0 -> py_range n = [].
Proof.
  intros Hn. unfold py_range. replace (Z.to_nat n) with 0%nat by lia.
  reflexivity.
Qed.

Lemma build_ok (a b : Z) : build a b = Ok tt -> 1 <= b /\ a mod 2 = 0.
Proof.
  unfold build, static_split. change (2 <? 1) with false. cbv iota.
  destruct (a mod 2 =? 0) eqn:E2; cbn [negb bind]; [|discriminate].
  destruct (b <? 1) eqn:E; [discriminate|].
  apply Z.ltb_ge in E. apply Z.eqb_eq in E2. auto.
Qed.

Lemma build_negative (a b : Z) : b < 1 -> build a b = Err ValueError.
Proof.
  intros Hb. unfold build, static_split. change (2 <? 1) with false. cbv iota.
  destruct (negb (a mod 2 =? 0)); cbn [bind]; [reflexivity|].
  destruct (b <? 1) eqn:E; [reflexivity|]. apply Z.ltb_ge in E. lia.
Qed.

(** C5.  When [num_slices] does not divide [latent_depth] the constructor
    raises (the [ValueError] of [SliceTransform], or [ZeroDivisionError]
    for no slices at all), so no model exists to run a pass on; and every
    model it returns has [latent_depth = num_slices * slice_size]. *)
Theorem init_checks_divisibility (w : weights) (c : config) :
  (~ (c_num_slices c | c_latent_depth c) ->
   init w c = Err (if c_num_slices c =? 0 then ZeroDivisionError
                   else ValueError)) /\
  (forall m, init w c = Ok m ->
             num_slices m = c_num_slices c /\
             c_latent_depth c = num_slices m * slice_size m).
Proof.
  split.
  - intros Hd. unfold init.
    destruct (c_num_slices c =? 0) eqn:E0.
    + apply Z.eqb_eq in E0. rewrite E0. reflexivity.
    + apply Z.eqb_neq in E0. rewrite floordiv_ok by assumption. cbn [bind].
      destruct (Z.le_gt_cases 1 (c_num_slices c)) as [Hpos|Hneg].
      * rewrite py_range_pos by assumption. cbn [comprehension].
        rewrite SliceTransform_not_dividing by assumption. reflexivity.
      * rewrite py_range_neg by lia. cbn [comprehension bind].
        rewrite build_negative by lia. reflexivity.
  - intros m H. unfold init in H.
    destruct (floordiv (c_latent_depth c) (c_num_slices c)) as [size|e]
      eqn:F; cbn [bind] in H; [|discriminate].
    destruct (comprehension
                (fun i => SliceTransform _ _ (w_cc_mean w i)) _)
      as [means|e] eqn:M; cbn [bind] in H; [|discriminate].
    destruct (comprehension
                (fun i => SliceTransform _ _ (w_cc_scale w i)) _)
      as [scales|e]; cbn [bind] in H; [|discriminate].
    destruct (build _ _) as [[]|e] eqn:B; cbn [bind] in H; [|discriminate].
    inversion H; subst m; cbn [num_slices slice_size]. clear H.
    apply build_ok in B. destruct B as [Hpos _].
    rewrite py_range_pos in M by assumption. cbn [comprehension] in M.
    destruct (SliceTransform _ _ _) as [g|e] eqn:T; cbn [bind] in M;
      [|discriminate].
    apply SliceTransform_ok in T. destruct T as (Hnz & Hmul & _).
    rewrite floordiv_ok in F by assumption. inversion F; subst size.
    split; [reflexivity|exact Hmul].
Qed.

(** [latent_depth = 320] with [num_slices = 7] fails at once. *)
Lemma init_checks_divisibility_witness :
  init (Toy.nets 320 45) (Toy.conf 320 7 5 64) = Err ValueError.
Proof.
  refine (proj1 (init_checks_divisibility (Toy.nets 320 45)
                   (Toy.conf 320 7 5 64)) _).
  cbn. intros [q Hq]. lia.
Defined.

(* ------------------------------------------------------------------ *)
(** ** The lifecycle *)

Lemma init_not_frozen (w : weights) (c : config) (m : ConvCharm) :
  init w c = Ok m -> em_z m = None /\ em_y m = None.
Proof.
  unfold init. intros H.
  destruct (floordiv _ _) as [size|e]; cbn [bind] in H; [|discriminate].
  destruct (comprehension (fun i => SliceTransform _ _ (w_cc_mean w i)) _)
    as [means|e]; cbn [bind] in H; [|discriminate].
  destruct (comprehension (fun i => SliceTransform _ _ (w_cc_scale w i)) _)
    as [scales|e]; cbn [bind] in H; [|discriminate].
  destruct (build _ _) as [[]|e]; cbn [bind] in H; [|discriminate].
  inversion H. split; reflexivity.
Qed.

Lemma compress_before_fit (lib : tfc) (m : ConvCharm) (x : image) :
  em_z m = None -> compress lib m x = Err AttributeError.
Proof.
  intros Hz. unfold compress, compress_trace, compress_context, get_em_z.
  rewrite Hz. reflexivity.
Qed.

Lemma decompress_before_fit (lib : tfc) (m : ConvCharm) (b : bitstream) :
  em_z m = None ->
  decompress lib m b =
  Err (if Z.of_nat (length (y_strings b)) =? num_slices m
       then AttributeError else AssertionError).
Proof.
  intros Hz.
  unfold decompress, decompress_trace, decompress_context, get_em_z.
  rewrite Hz.
  destruct (Z.of_nat (length (y_strings b)) =? num_slices m); reflexivity.
Qed.

Lemma in_phase_bind (A B : Type) (r : result A) (k : A -> result B) :
  in_phase r -> (forall a, r = Ok a -> in_phase (k a)) -> in_phase (bind r k).
Proof. destruct r as [a|e]; cbn; auto. Qed.

Lemma in_phase_tf_split (t : tensor) (n : Z) : in_phase (tf_split t n).
Proof.
  unfold tf_split. destruct (n <? 1); [reflexivity|].
  destruct (negb _); [reflexivity|exact I].
Qed.

Lemma in_phase_tf_split2 (t : tensor) : in_phase (tf_split2 t).
Proof.
  unfold tf_split2. apply in_phase_bind; [apply in_phase_tf_split|].
  intros [|a [|b [|c l]]] _; first [exact I | reflexivity].
Qed.

Lemma in_phase_zip_exact (A : Type) (f : A -> A -> result A) :
  (forall x y, in_phase (f x y)) -> forall a b, in_phase (zip_exact f a b).
Proof.
  intros Hf a. induction a as [|x a IH]; intros [|y b]; cbn;
    try first [exact I | reflexivity].
  apply in_phase_bind; [apply Hf|]. intros z _.
  apply in_phase_bind; [apply IH|]. intros r _. exact I.
Qed.

Lemma in_phase_tf_concat (ts : list tensor) : in_phase (tf_concat ts).
Proof.
  induction ts as [|t ts IH]; [reflexivity|].
  destruct ts as [|t' ts]; [exact I|].
  change (in_phase (bind (tf_concat (t' :: ts)) (fun r => concat2 t r))).
  apply in_phase_bind; [exact IH|]. intros r _.
  unfold concat2. repeat apply in_phase_zip_exact. intros; exact I.
Qed.

Lemma in_phase_py_index (A : Type) (l : list A) (i : nat) :
  in_phase (py_index l i).
Proof.
  unfold py_index. destruct (nth_error l i); [exact I|reflexivity].
Qed.

Lemma in_phase_slice_params (m : ConvCharm) means scales shape i acc :
  in_phase (slice_params m means scales shape i acc).
Proof.
  unfold slice_params, predict.
  apply in_phase_bind; [apply in_phase_tf_concat|]. intros ? _.
  apply in_phase_bind; [apply in_phase_py_index|]. intros ? _.
  apply in_phase_bind; [apply in_phase_tf_concat|]. intros ? _.
  apply in_phase_bind; [apply in_phase_py_index|]. intros ? _. exact I.
Qed.

Lemma in_phase_slice_loop (X O : Type)
  (step : nat -> X -> list tensor -> result (tensor * O)) :
  (forall i x acc, in_phase (step i x acc)) ->
  forall xs i acc outs, in_phase (slice_loop step i xs acc outs).
Proof.
  intros Hs xs. induction xs as [|x xs IH]; intros i acc outs; cbn;
    [exact I|].
  apply in_phase_bind; [apply Hs|]. intros [t o] _. apply IH.
Qed.

Section Frozen.

Variable lib : tfc.
Variable m : ConvCharm.
Variables (emz : ContinuousBatchedEntropyModel)
          (emy : LocationScaleIndexedEntropyModel).
Hypothesis Hz : em_z m = Some emz.
Hypothesis Hy : em_y m = Some emy.
Hypothesis Hzc : cb_compression emz = true.
Hypothesis Hyc : ls_compression emy = true.

Lemma frozen_compress_step means scales shape i y acc :
  in_phase (compress_step lib m means scales shape i y acc).
Proof.
  unfold compress_step.
  apply in_phase_bind; [apply in_phase_slice_params|]. intros [mu sigma] _.
  unfold get_em_y, em_y_compress, em_y_decompress, check_compression.
  rewrite Hy. cbn [bind]. rewrite Hyc. exact I.
Qed.

Lemma frozen_decompress_step means scales shape i s acc :
  in_phase (decompress_step lib m means scales shape i s acc).
Proof.
  unfold decompress_step.
  apply in_phase_bind; [apply in_phase_slice_params|]. intros [mu sigma] _.
  unfold get_em_y, em_y_decompress, check_compression.
  rewrite Hy. cbn [bind]. rewrite Hyc. exact I.
Qed.

Lemma frozen_compress (x : image) : in_phase (compress lib m x).
Proof.
  unfold compress, compress_trace, compress_context.
  unfold get_em_z, em_z_compress, em_z_decompress, check_compression.
  rewrite Hz. cbn [bind]. rewrite Hzc. cbn [bind].
  apply in_phase_bind; [|intros [? ?] _; exact I].
  apply in_phase_bind.
  - apply in_phase_bind; [apply in_phase_tf_split2|]. intros [? ?] _.
    apply in_phase_bind; [apply in_phase_tf_split|]. intros ? _. exact I.
  - intros [[[[? ?] ?] ?] ?] _.
    apply in_phase_bind; [|intros [? ?] _; exact I].
    apply in_phase_slice_loop. intros. apply frozen_compress_step.
Qed.

Lemma frozen_decompress (b : bitstream) : in_phase (decompress lib m b).
Proof.
  unfold decompress, decompress_trace, decompress_context.
  unfold get_em_z, em_z_decompress, check_compression.
  rewrite Hz. cbn [bind]. rewrite Hzc. cbn [bind].
  apply in_phase_bind; [|intros [[? ?] ?] _; exact I].
  apply in_phase_bind.
  - apply in_phase_bind.
    + unfold py_assert. destruct (_ =? _); [exact I|reflexivity].
    + intros [] _. cbn [bind].
      apply in_phase_bind; [apply in_phase_tf_split2|]. intros [? ?] _.
      exact I.
  - intros ctx _.
    apply in_phase_bind.
    { apply in_phase_slice_loop. intros. apply frozen_decompress_step. }
    intros [ys os] _.
    apply in_phase_bind; [apply in_phase_tf_concat|]. intros y_hat _.
    apply in_phase_bind; [|intros; exact I].
    unfold to_pixels, crop_first.
    destruct (synthesis_transform m y_hat); [reflexivity|exact I].
Qed.

End Frozen.

(** C6.  A model as the constructor leaves it has no entropy models:
    [compress] and [decompress] raise.  [fit] sets both, built with
    [compression=True], and from then on neither call raises for want of
    an entropy model able to code. *)
Theorem coding_needs_fit (lib : tfc) (w trained : weights) (c : config)
  (m : ConvCharm) :
  init w c = Ok m ->
  (forall x, compress lib m x = Err AttributeError) /\
  (forall b, decompress lib m b =
             Err (if Z.of_nat (length (y_strings b)) =? num_slices m
                  then AttributeError else AssertionError)) /\
  (forall b, is_err (decompress_fn lib m b) = true) /\
  em_z (fit trained m) =
    Some {| cb_prior := w_hyperprior trained; cb_compression := true |} /\
  em_y (fit trained m) =
    Some {| ls_num_scales := num_scales m; ls_scale_fn := scale_fn m;
            ls_compression := true |} /\
  (forall x, in_phase (compress lib (fit trained m) x)) /\
  (forall b, in_phase (decompress lib (fit trained m) b)).
Proof.
  intros Hi. destruct (init_not_frozen _ _ Hi) as [Hz Hy].
  split; [intros x; now apply compress_before_fit|].
  split; [intros b; now apply decompress_before_fit|].
  split.
  { intros b. unfold decompress_fn.
    destruct (check_signature m b) as [[]|e]; [|reflexivity].
    cbn [bind]. rewrite decompress_before_fit by assumption. reflexivity. }
  split; [reflexivity|]. split; [reflexivity|].
  split; intros ?;
    [eapply frozen_compress | eapply frozen_decompress]; reflexivity.
Qed.

Lemma toy_fresh10 :
  init (Toy.nets 10 1) (Toy.conf 10 10 3 64) = Ok Toy.fresh10.
Proof. reflexivity. Qed.

(** [compress] on the ten-slice instance before [fit]. *)
Lemma coding_needs_fit_witness :
  compress Toy.lib Toy.fresh10 Toy.picture = Err AttributeError.
Proof.
  exact (proj1 (@coding_needs_fit Toy.lib _ (Toy.nets 10 1) _ _ toy_fresh10)
               Toy.picture).
Defined.

(* ------------------------------------------------------------------ *)
(** ** The arity of [decompress] *)

(** C9.  With a number of slice strings other than [num_slices], the
    method [decompress] fails on its assertion, and the call through the
    attribute [self.decompress] is refused by the signature. *)
Theorem decompress_checks_arity (lib : tfc) (m : ConvCharm) (b : bitstream) :
  Z.of_nat (length (y_strings b)) <> num_slices m ->
  decompress lib m b = Err AssertionError /\
  decompress_fn lib m b = Err SignatureError.
Proof.
  intros Hn. split.
  - unfold decompress, decompress_trace, decompress_context.
    destruct (_ =? _) eqn:E; [apply Z.eqb_eq in E; contradiction|].
    reflexivity.
  - unfold decompress_fn, check_signature.
    destruct (_ =? _) eqn:E; [|reflexivity].
    apply Z.eqb_eq in E. lia.
Qed.

(** Nine strings for the ten-slice instance. *)
Lemma decompress_checks_arity_witness :
  decompress Toy.lib Toy.model10 (Toy.short_stream Toy.model10) =
    Err AssertionError /\
  decompress_fn Toy.lib Toy.model10 (Toy.short_stream Toy.model10) =
    Err SignatureError.
Proof.
  apply decompress_checks_arity. vm_compute. discriminate.
Defined.

(* ------------------------------------------------------------------ *)
(** ** The scale mapping *)

Lemma init_scale_fn (w : weights) (c : config) (m : ConvCharm) :
  init w c = Ok m ->
  scale_fn m = make_scale_fn (c_num_scales c) (c_scale_min c) (c_scale_max c).
Proof.
  unfold init. intros H.
  destruct (floordiv _ _) as [size|e]; cbn [bind] in H; [|discriminate].
  destruct (comprehension (fun i => SliceTransform _ _ (w_cc_mean w i)) _)
    as [means|e]; cbn [bind] in H; [|discriminate].
  destruct (comprehension (fun i => SliceTransform _ _ (w_cc_scale w i)) _)
    as [scales|e]; cbn [bind] in H; [|discriminate].
  destruct (build _ _) as [[]|e]; cbn [bind] in H; [|discriminate].
  inversion H. reflexivity.
Qed.

(** The constructor looks at the number of scales nowhere. *)
Lemma init_ignores_num_scales (w : weights) (c : config) (n : Z) :
  is_err (init w (with_num_scales n c)) = is_err (init w c).
Proof.
  unfold init. cbn [with_num_scales c_latent_depth c_num_slices].
  destruct (floordiv _ _) as [size|e]; cbn [bind]; [|reflexivity].
  destruct (comprehension (fun i => SliceTransform _ _ (w_cc_mean w i)) _)
    as [means|e]; cbn [bind]; [|reflexivity].
  destruct (comprehension (fun i => SliceTransform _ _ (w_cc_scale w i)) _)
    as [scales|e]; cbn [bind]; [|reflexivity].
  destruct (build _ _) as [[]|e]; reflexivity.
Qed.

Lemma xlog_pos (r : R) : (0 < r)%R -> xlog (Fin r) = Fin (ln r).
Proof.
  intros Hr. unfold xlog. destruct (Rlt_dec 0 r); [reflexivity|contradiction].
Qed.

Lemma xdiv_pos (a b : R) : (0 < b)%R -> xdiv (Fin a) (Fin b) = Fin (a / b).
Proof.
  intros Hb. unfold xdiv. destruct (Rlt_dec 0 b); [reflexivity|contradiction].
Qed.

(** With at least two scales and positive bounds every value of the scale
    mapping is the finite one of the formula. *)
Lemma make_scale_fn_finite (n : Z) (smin smax i : R) :
  2 <= n -> (0 < smin)%R -> (0 < smax)%R ->
  make_scale_fn n smin smax (Fin i) = Fin (scale_fn_spec n smin smax i).
Proof.
  intros Hn Hmin Hmax.
  assert (Hd : (0 < IZR n - 1)%R).
  { apply IZR_le in Hn. lra. }
  unfold make_scale_fn, scale_offset, scale_factor, scale_fn_spec.
  rewrite !xlog_pos by assumption.
  unfold xsub, xneg, xadd. rewrite xdiv_pos by assumption.
  unfold xmul, xexp. f_equal. f_equal. field. lra.
Qed.

Lemma scale_fn_spec_increasing (n : Z) (smin smax i j : R) :
  2 <= n -> (0 < smin < smax)%R -> (i < j)%R ->
  (scale_fn_spec n smin smax i < scale_fn_spec n smin smax j)%R.
Proof.
  intros Hn [Hmin Hlt] Hij.
  assert (Hd : (0 < IZR n - 1)%R).
  { apply IZR_le in Hn. lra. }
  assert (Hl : (0 < ln smax - ln smin)%R).
  { pose proof (ln_increasing smin smax Hmin Hlt). lra. }
  unfold scale_fn_spec. apply exp_increasing.
  apply Rplus_lt_compat_l. unfold Rdiv.
  apply Rmult_lt_compat_r; [now apply Rinv_0_lt_compat|].
  apply Rmult_lt_compat_r; assumption.
Qed.

Lemma scale_fn_spec_ends (n : Z) (smin smax : R) :
  2 <= n -> (0 < smin)%R -> (0 < smax)%R ->
  scale_fn_spec n smin smax 0 = smin /\
  scale_fn_spec n smin smax (IZR n - 1) = smax.
Proof.
  intros Hn Hmin Hmax.
  assert (Hd : (0 < IZR n - 1)%R).
  { apply IZR_le in Hn. lra. }
  unfold scale_fn_spec. split.
  - replace (ln smin + 0 * (ln smax - ln smin) / (IZR n - 1))%R
      with (ln smin) by (field; lra).
    now apply exp_ln.
  - replace (ln smin + (IZR n - 1) * (ln smax - ln smin) / (IZR n - 1))%R
      with (ln smax) by (field; lra).
    now apply exp_ln.
Qed.

(** C7.  For [0 < scale_min < scale_max] and [num_scales >= 2] the scale
    mapping of a constructed model is, on real numbers,
    [exp(log(scale_min) + i * (log(scale_max) - log(scale_min)) /
    (num_scales - 1))]; it is strictly increasing in [i], equal to
    [scale_min] at [0] and to [scale_max] at [num_scales - 1]. *)
Theorem scale_fn_is_increasing (w : weights) (c : config) (m : ConvCharm) :
  init w c = Ok m ->
  (0 < c_scale_min c < c_scale_max c)%R ->
  2 <= c_num_scales c ->
  (forall i : R,
      scale_fn m (Fin i) =
      Fin (scale_fn_spec (c_num_scales c) (c_scale_min c) (c_scale_max c) i))
  /\
  (forall i j : R,
      (i < j)%R ->
      (scale_fn_spec (c_num_scales c) (c_scale_min c) (c_scale_max c) i <
       scale_fn_spec (c_num_scales c) (c_scale_min c) (c_scale_max c) j)%R)
  /\
  scale_fn m (Fin 0) = Fin (c_scale_min c) /\
  scale_fn m (Fin (IZR (c_num_scales c) - 1)) = Fin (c_scale_max c).
Proof.
  intros Hi [Hmin Hlt] Hn.
  assert (Hmax : (0 < c_scale_max c)%R) by lra.
  rewrite (init_scale_fn _ _ Hi).
  destruct (scale_fn_spec_ends Hn Hmin Hmax) as [E0 E1].
  split; [intros i; now apply make_scale_fn_finite|].
  split; [intros i j; apply scale_fn_spec_increasing; auto|].
  rewrite !make_scale_fn_finite by assumption.
  rewrite E0, E1. split; reflexivity.
Qed.

(** The ten-slice instance: 64 scales from 0.11 to 256. *)
Lemma scale_fn_is_increasing_witness :
  scale_fn Toy.fresh10 (Fin 0) = Fin (11 / 100) /\
  scale_fn Toy.fresh10 (Fin (IZR 64 - 1)) = Fin 256.
Proof.
  refine (proj2 (proj2 (@scale_fn_is_increasing _ _ _ toy_fresh10 _ _))).
  - cbn. lra.
  - cbn. lia.
Defined.

(** With a single scale the factor is a division by zero: the value at
    index 0, the only index there is, is not a number. *)
Lemma make_scale_fn_single (smin smax : R) :
  (0 < smin)%R -> (0 < smax)%R ->
  make_scale_fn 1 smin smax (Fin 0) = NaN.
Proof.
  intros Hmin Hmax.
  unfold make_scale_fn, scale_offset, scale_factor.
  rewrite !xlog_pos by assumption.
  unfold xsub, xneg, xadd, xdiv.
  destruct (Rlt_dec 0 (1 - 1)) as [H|_]; [lra|].
  destruct (Rlt_dec (1 - 1) 0) as [H|_]; [lra|].
  destruct (Rlt_dec 0 (ln smax + - ln smin)) as [_|_];
    [|destruct (Rlt_dec (ln smax + - ln smin) 0) as [_|_]];
    unfold xmul, xinf_scaled;
    try (destruct (Rlt_dec 0 0) as [H|_]; [lra|]); reflexivity.
Qed.

Lemma make_scale_fn_single_inf (smin smax i : R) :
  (0 < smin < smax)%R -> (0 < i)%R ->
  make_scale_fn 1 smin smax (Fin i) = PInf.
Proof.
  intros [Hmin Hlt] Hi.
  assert (Hl : (0 < ln smax + - ln smin)%R).
  { pose proof (ln_increasing smin smax Hmin Hlt). lra. }
  unfold make_scale_fn, scale_offset, scale_factor.
  rewrite !xlog_pos by lra.
  unfold xsub, xneg, xadd, xdiv.
  destruct (Rlt_dec 0 (1 - 1)) as [H|_]; [lra|].
  destruct (Rlt_dec (1 - 1) 0) as [H|_]; [lra|].
  destruct (Rlt_dec 0 (ln smax + - ln smin)) as [_|H]; [|contradiction].
  unfold xmul, xinf_scaled.
  destruct (Rlt_dec 0 i) as [_|H]; [reflexivity|contradiction].
Qed.

(** C10.  The constructor succeeds or fails regardless of [num_scales].
    With [num_scales = 1] the scale mapping of the constructed model is not
    finite: not a number at index 0, infinite at every positive index when
    [scale_min < scale_max].  With [num_scales >= 2] it is finite at every
    finite index. *)
Theorem single_scale_is_not_finite (w : weights) (c : config) :
  (0 < c_scale_min c)%R -> (0 < c_scale_max c)%R ->
  (forall n, is_err (init w (with_num_scales n c)) = is_err (init w c)) /\
  (forall m, init w (with_num_scales 1 c) = Ok m ->
             scale_fn m (Fin 0) = NaN /\
             ~ is_finite (scale_fn m (Fin 0)) /\
             ((c_scale_min c < c_scale_max c)%R ->
              forall i : R, (0 < i)%R -> scale_fn m (Fin i) = PInf)) /\
  (forall n m, 2 <= n -> init w (with_num_scales n c) = Ok m ->
               forall i : R, is_finite (scale_fn m (Fin i))).
Proof.
  intros Hmin Hmax.
  split; [intros n; apply init_ignores_num_scales|]. split.
  - intros m Hi. rewrite (init_scale_fn _ _ Hi).
    cbn [with_num_scales c_num_scales c_scale_min c_scale_max].
    rewrite make_scale_fn_single by assumption.
    split; [reflexivity|]. split; [intros H; exact H|].
    intros Hlt i Hpos. apply make_scale_fn_single_inf; auto.
  - intros n m Hn Hi i. rewrite (init_scale_fn _ _ Hi).
    cbn [with_num_scales c_num_scales c_scale_min c_scale_max].
    rewrite make_scale_fn_finite by assumption. exact I.
Qed.

Lemma toy_single_scale :
  init (Toy.nets 320 32) (with_num_scales 1 (Toy.conf 320 10 5 64)) =
  Ok Toy.single_scale.
Proof. reflexivity. Qed.

(** The default configuration with [num_scales = 1] is constructed without
    an error, and its scale mapping at index 0 is not a number. *)
Lemma single_scale_is_not_finite_witness :
  is_err (init (Toy.nets 320 32) (with_num_scales 1 (Toy.conf 320 10 5 64)))
  = false /\
  scale_fn Toy.single_scale (Fin 0) = NaN.
Proof.
  split; [reflexivity|].
  refine (proj1 (proj1 (proj2 (@single_scale_is_not_finite
                                 (Toy.nets 320 32) (Toy.conf 320 10 5 64)
                                 _ _))
                       Toy.single_scale toy_single_scale)); cbn; lra.
Defined.

(* ------------------------------------------------------------------ *)
(** ** What [decompress] returns *)

Lemma tf_round_nearest (q : Q) :
  (q - (1 # 2) <= tf_round q /\ tf_round q <= q + (1 # 2))%Q.
Proof.
  unfold tf_round.
  pose proof (Qfloor_le q) as Hlo. pose proof (Qlt_floor q) as Hhi.
  rewrite inject_Z_plus in Hhi. rewrite !inject_Z_plus.
  change (inject_Z 1) with 1%Q in *.
  destruct (Z.even (Qfloor q)); generalize dependent (inject_Z (Qfloor q));
    intros f Hlo Hhi;
    destruct (Qcompare (q - f) (1 # 2)) eqn:E;
    first [apply Qeq_alt in E | apply Qlt_alt in E | apply Qgt_alt in E];
    split; Lqa.lra.
Qed.

Lemma saturate_cast_uint8_range (q : Q) : 0 <= saturate_cast_uint8 q <= 255.
Proof.
  unfold saturate_cast_uint8.
  destruct (Qle_bool q 0) eqn:E0; [lia|].
  destruct (Qle_bool 255 q) eqn:E1; [lia|].
  assert (H0 : (0 < q)%Q).
  { apply Qnot_le_lt. intros H. apply Qle_bool_iff in H. congruence. }
  assert (H1 : (q < 255)%Q).
  { apply Qnot_le_lt. intros H. apply Qle_bool_iff in H. congruence. }
  split.
  - change 0 with (Qfloor 0). apply Qfloor_resp_le. now apply Qlt_le_weak.
  - change 255 with (Qfloor 255). apply Qfloor_resp_le. now apply Qlt_le_weak.
Qed.

Lemma py_upto_length (A : Type) (k : Z) (l : list A) :
  0 <= k -> Z.of_nat (length (py_upto k l)) <= k.
Proof.
  intros Hk. rewrite py_upto_firstn by assumption.
  rewrite length_firstn. lia.
Qed.

Lemma to_pixels_is_uint8 (hw : shape2) (x_hat : tensor) (pixels : image) :
  to_pixels hw x_hat = Ok pixels -> is_uint8 pixels.
Proof.
  unfold to_pixels. intros H.
  destruct (crop_first hw x_hat) as [cropped|e]; cbn [bind] in H;
    [|discriminate].
  inversion H. unfold is_uint8.
  repeat (apply Forall_map; apply Forall_forall; intros ? _).
  apply saturate_cast_uint8_range.
Qed.

Lemma to_pixels_fits (hw : shape2) (x_hat : tensor) (pixels : image) :
  0 <= fst hw -> 0 <= snd hw ->
  to_pixels hw x_hat = Ok pixels -> fits hw pixels.
Proof.
  unfold to_pixels, crop_first. intros Hh Hw H.
  destruct x_hat as [|im rest]; cbn [bind] in H; [discriminate|].
  inversion H. unfold fits. rewrite !length_map. split.
  - now apply py_upto_length.
  - apply Forall_map. apply Forall_map. apply Forall_forall. intros row _.
    rewrite length_map. now apply py_upto_length.
Qed.

(** C8 (as amended).  Whenever [decompress] returns, it returns a pair:
    the image obtained from the synthesis output of the merged decoded
    slices by taking the first batch entry cropped to [x_shape], rounding
    and saturating to 8-bit unsigned integers, together with the merged
    decoded latent [y_hat]. *)
Theorem decompress_returns_pixels_and_latent
  (lib : tfc) (m : ConvCharm) (b : bitstream) (v : pyval) :
  decompress_value lib m b = Ok v ->
  exists pixels y_hat ys,
    v = PyTuple [PyUint8 pixels; PyFloat y_hat] /\
    decompress_trace lib m b = Ok (pixels, y_hat, ys) /\
    tf_concat ys = Ok y_hat /\
    to_pixels (x_shape b) (synthesis_transform m y_hat) = Ok pixels /\
    is_uint8 pixels /\
    (0 <= fst (x_shape b) -> 0 <= snd (x_shape b) ->
     fits (x_shape b) pixels).
Proof.
  unfold decompress_value, decompress_fn, decompress. intros H.
  destruct (check_signature m b) as [[]|e]; cbn [bind] in H; [|discriminate].
  destruct (decompress_trace lib m b) as [[[pixels y_hat] ys]|e] eqn:T;
    cbn [bind] in H; [|discriminate].
  inversion H; subst v. clear H.
  exists pixels, y_hat, ys. split; [reflexivity|]. split; [reflexivity|].
  unfold decompress_trace in T.
  destruct (decompress_context lib m b) as [ctx|e]; cbn [bind] in T;
    [|discriminate].
  destruct (decompress_loop lib m ctx (y_strings b)) as [[yh os]|e];
    cbn [bind] in T; [|discriminate].
  destruct (tf_concat yh) as [y|e] eqn:C; cbn [bind] in T; [|discriminate].
  destruct (to_pixels (x_shape b) (synthesis_transform m y)) as [p|e] eqn:P;
    cbn [bind] in T; [|discriminate].
  inversion T; subst p y yh. clear T.
  split; [exact C|]. split; [exact P|].
  split; [exact (to_pixels_is_uint8 _ _ P)|].
  intros Hh Hw. exact (to_pixels_fits _ _ Hh Hw P).
Qed.

Lemma toy_model10_value :
  decompress_value Toy.lib Toy.model10 (Toy.stream Toy.model10) =
  Ok (PyTuple
        [PyUint8 [[[60; 61; 62]]];
         PyFloat (Toy.one_pixel
                    (map (fun i => inject_Z (60 + Z.of_nat i)) (seq 0 10)))]).
Proof. vm_compute. reflexivity. Qed.

(** The pair returned for the ten-slice instance. *)
Lemma decompress_returns_pixels_and_latent_witness :
  exists pixels y_hat ys,
    PyTuple
      [PyUint8 [[[60; 61; 62]]];
       PyFloat (Toy.one_pixel
                  (map (fun i => inject_Z (60 + Z.of_nat i)) (seq 0 10)))] =
    PyTuple [PyUint8 pixels; PyFloat y_hat] /\
    decompress_trace Toy.lib Toy.model10 (Toy.stream Toy.model10) =
      Ok (pixels, y_hat, ys) /\
    tf_concat ys = Ok y_hat /\
    to_pixels (x_shape (Toy.stream Toy.model10))
              (synthesis_transform Toy.model10 y_hat) = Ok pixels /\
    is_uint8 pixels /\
    (0 <= fst (x_shape (Toy.stream Toy.model10)) ->
     0 <= snd (x_shape (Toy.stream Toy.model10)) ->
     fits (x_shape (Toy.stream Toy.model10)) pixels).
Proof.
  exact (decompress_returns_pixels_and_latent
           Toy.lib Toy.model10 (Toy.stream Toy.model10) toy_model10_value).
Defined.

(** C8 as stated fails: what [decompress] returns is not the image; on the
    ten-slice instance it is the pair of the image and the latent. *)
Lemma decompress_does_not_return_the_image :
  to_pixels (x_shape (Toy.stream Toy.model10))
            (synthesis_transform Toy.model10
               (Toy.one_pixel
                  (map (fun i => inject_Z (60 + Z.of_nat i)) (seq 0 10)))) =
    Ok [[[60; 61; 62]]] /\
  decompress_value Toy.lib Toy.model10 (Toy.stream Toy.model10) <>
    Ok (PyUint8 [[[60; 61; 62]]]).
Proof.
  split; [vm_compute; reflexivity|].
  rewrite toy_model10_value. intros H. discriminate H.
Qed.

(** Rounding goes to the even neighbour at a half, and the cast
    saturates. *)
Example tf_round_halves :
  map tf_round [1 # 2; 3 # 2; 5 # 2; -1 # 2; 7 # 4]%Q = [0; 2; 2; 0; 2]%Q.
Proof. reflexivity. Qed.

Example saturate_cast_uint8_clamps :
  map saturate_cast_uint8 [-5; 0; 128; 255; 300]%Q = [0; 0; 128; 255; 255].
Proof. reflexivity. Qed.

(* ================================================================== *)
(** * Further properties of the coding pipeline *)

(* ------------------------------------------------------------------ *)
(** ** Sizes *)

Lemma init_facts (w : weights) (c : config) (m : ConvCharm) :
  init w c = Ok m ->
  num_slices m = c_num_slices c /\
  1 <= num_slices m /\
  slice_size m = c_latent_depth c / c_num_slices c /\
  c_latent_depth c = num_slices m * slice_size m /\
  c_latent_depth c mod 2 = 0.
Proof.
  intros H. unfold init in H.
  destruct (floordiv (c_latent_depth c) (c_num_slices c)) as [size|e]
    eqn:F; cbn [bind] in H; [|discriminate].
  destruct (comprehension
              (fun i => SliceTransform _ _ (w_cc_mean w i)) _)
    as [means|e] eqn:M; cbn [bind] in H; [|discriminate].
  destruct (comprehension
              (fun i => SliceTransform _ _ (w_cc_scale w i)) _)
    as [scales|e]; cbn [bind] in H; [|discriminate].
  destruct (build _ _) as [[]|e] eqn:B; cbn [bind] in H; [|discriminate].
  inversion H; subst m; cbn [num_slices slice_size]. clear H.
  apply build_ok in B. destruct B as [Hpos Heven].
  rewrite py_range_pos in M by assumption. cbn [comprehension] in M.
  destruct (SliceTransform _ _ _) as [g|e] eqn:T; cbn [bind] in M;
    [|discriminate].
  apply SliceTransform_ok in T. destruct T as (Hnz & Hmul & _).
  rewrite floordiv_ok in F by assumption. inversion F; subst size.
  repeat split; auto.
Qed.

Lemma call_context_slices (lib : tfc) (m : ConvCharm) (x : tensor) ctx
  (y_slices : list tensor) :
  call_context lib m x = Ok (ctx, y_slices) ->
  Z.of_nat (length y_slices) = num_slices m.
Proof.
  unfold call_context. intros H.
  destruct (tf_split2 _) as [[means scales]|e]; cbn [bind] in H;
    [|discriminate].
  destruct (tf_split _ (num_slices m)) as [parts|e] eqn:S; cbn [bind] in H;
    [|discriminate].
  inversion H; subst. now apply tf_split_length in S.
Qed.

Lemma compress_context_slices (lib : tfc) (m : ConvCharm) (x : image)
  xs zs zstr ctx (y_slices : list tensor) :
  compress_context lib m x = Ok (xs, zs, zstr, ctx, y_slices) ->
  Z.of_nat (length y_slices) = num_slices m /\
  xs = spatial_shape (batch_of_image x).
Proof.
  unfold compress_context. intros H.
  destruct (get_em_z m) as [em|e]; cbn [bind] in H; [|discriminate].
  destruct (em_z_compress lib em _) as [s|e]; cbn [bind] in H; [|discriminate].
  destruct (em_z_decompress lib em s _) as [z_hat|e]; cbn [bind] in H;
    [|discriminate].
  destruct (tf_split2 _) as [[means scales]|e]; cbn [bind] in H;
    [|discriminate].
  destruct (tf_split _ (num_slices m)) as [parts|e] eqn:S; cbn [bind] in H;
    [|discriminate].
  inversion H; subst. apply tf_split_length in S. now split.
Qed.

Lemma decompress_context_strings (lib : tfc) (m : ConvCharm) (b : bitstream)
  ctx :
  decompress_context lib m b = Ok ctx ->
  Z.of_nat (length (y_strings b)) = num_slices m.
Proof.
  unfold decompress_context. intros H.
  destruct (Z.of_nat (length (y_strings b)) =? num_slices m) eqn:E;
    cbn [py_assert bind] in H; [|discriminate].
  now apply Z.eqb_eq in E.
Qed.

(** X1.  Every pass that returns has decoded exactly [num_slices]
    slices. *)
Theorem pass_decodes_every_slice (lib : tfc) (m : ConvCharm) support
  (ys : list tensor) :
  forward_pass lib m support ys ->
  Z.of_nat (length ys) = num_slices m.
Proof.
  intros [x training ys' x_hat H | x out ys' H | b pixels y_hat ys' H].
  - unfold call_forward in H.
    destruct (call_context lib m x) as [[ctx y_slices]|e] eqn:C;
      cbn [bind] in H; [|discriminate].
    destruct (call_loop lib m ctx y_slices) as [[yh os]|e] eqn:L;
      cbn [bind] in H; [|discriminate].
    unbind H. inversion H; subst ys' x_hat.
    unfold call_loop in L.
    destruct (slice_loop_extends _ _ _ _ _ L) as (r & ro & Hr & _ & Lr & _).
    cbn [app] in Hr. subst r. rewrite Lr.
    exact (call_context_slices _ _ _ C).
  - unfold compress_trace in H.
    destruct (compress_context lib m x)
      as [[[[[xs zs] zstr] ctx] y_slices]|e] eqn:C; cbn [bind] in H;
      [|discriminate].
    destruct (compress_loop lib m ctx y_slices) as [[yh os]|e] eqn:L;
      cbn [bind] in H; [|discriminate].
    inversion H; subst out ys'.
    unfold compress_loop in L.
    destruct (slice_loop_extends _ _ _ _ _ L) as (r & ro & Hr & _ & Lr & _).
    cbn [app] in Hr. subst r. rewrite Lr.
    exact (proj1 (compress_context_slices _ _ _ C)).
  - unfold decompress_trace in H.
    destruct (decompress_context lib m b) as [ctx|e] eqn:C; cbn [bind] in H;
      [|discriminate].
    destruct (decompress_loop lib m ctx (y_strings b)) as [[yh os]|e] eqn:L;
      cbn [bind] in H; [|discriminate].
    unbind H. unbind H. inversion H; subst pixels y_hat ys'.
    unfold decompress_loop in L.
    destruct (slice_loop_extends _ _ _ _ _ L) as (r & ro & Hr & _ & Lr & _).
    cbn [app] in Hr. subst r. rewrite Lr.
    exact (decompress_context_strings _ _ _ C).
Qed.

Lemma pass_decodes_every_slice_witness :
  Z.of_nat (length (Toy.slices_from 60 10)) = num_slices Toy.model10.
Proof.
  exact (pass_decodes_every_slice
           (pass_decompress Toy.lib Toy.model10 _ toy_model10_run)).
Defined.

Lemma compress_ok (lib : tfc) (m : ConvCharm) (x : image) (b : bitstream) :
  compress lib m x = Ok b -> exists ys, compress_trace lib m x = Ok (b, ys).
Proof.
  unfold compress. intros H.
  destruct (compress_trace lib m x) as [[out ys]|e]; cbn [bind] in H;
    [|discriminate].
  inversion H; subst. eauto.
Qed.

Lemma spatial_shape_batch (x : image) :
  spatial_shape (batch_of_image x) =
  (Z.of_nat (length x), Z.of_nat (length (hd [] x))).
Proof.
  unfold batch_of_image, spatial_shape. rewrite length_map.
  destruct x as [|row x]; cbn; [reflexivity|]. now rewrite length_map.
Qed.

Lemma compress_tuple_facts (lib : tfc) (m : ConvCharm) (x : image)
  (b : bitstream) :
  compress lib m x = Ok b ->
  Z.of_nat (length (y_strings b)) = num_slices m /\
  x_shape b = (Z.of_nat (length x), Z.of_nat (length (hd [] x))).
Proof.
  intros H. destruct (compress_ok _ _ _ H) as (ys & T).
  unfold compress_trace in T.
  destruct (compress_context lib m x)
    as [[[[[xs zs] zstr] ctx] y_slices]|e] eqn:C; cbn [bind] in T;
    [|discriminate].
  destruct (compress_loop lib m ctx y_slices) as [[yh os]|e] eqn:L;
    cbn [bind] in T; [|discriminate].
  inversion T; subst b ys. cbn [y_strings x_shape].
  unfold compress_loop in L.
  destruct (slice_loop_extends _ _ _ _ _ L) as (r & ro & _ & Ho & _ & Lo).
  cbn [app] in Ho. subst ro.
  destruct (compress_context_slices _ _ _ C) as [Hn Hx].
  split; [rewrite Lo; exact Hn|].
  rewrite Hx. apply spatial_shape_batch.
Qed.

(** X2.  The tuple returned by [compress] holds one string per slice, so
    the signature of [self.decompress] accepts it, and its [x_shape] is the
    height and width of the image. *)
Theorem compress_tuple_shape (lib : tfc) (m : ConvCharm) (x : image)
  (b : bitstream) :
  compress lib m x = Ok b ->
  Z.of_nat (length (y_strings b)) = num_slices m /\
  check_signature m b = Ok tt /\
  x_shape b = (Z.of_nat (length x), Z.of_nat (length (hd [] x))).
Proof.
  intros H. destruct (compress_tuple_facts _ _ _ H) as [Hlen Hx].
  split; [exact Hlen|]. split; [|exact Hx].
  unfold check_signature.
  replace (Z.of_nat (S (length (y_strings b))))
    with (Z.max 0 (num_slices m + 1)) by lia.
  now rewrite Z.eqb_refl.
Qed.

Lemma toy_model10_stream :
  compress Toy.lib Toy.model10 Toy.picture = Ok (Toy.stream Toy.model10).
Proof. vm_compute. reflexivity. Qed.

Lemma compress_tuple_shape_witness :
  x_shape (Toy.stream Toy.model10) = (1, 1).
Proof.
  exact (proj2 (proj2 (compress_tuple_shape _ _ _ toy_model10_stream))).
Defined.

Lemma decompress_fn_pixels (lib : tfc) (m : ConvCharm) (b : bitstream)
  (pixels : image) (y_hat : tensor) :
  decompress_fn lib m b = Ok (pixels, y_hat) ->
  to_pixels (x_shape b) (synthesis_transform m y_hat) = Ok pixels.
Proof.
  unfold decompress_fn, decompress, decompress_trace. intros H.
  destruct (check_signature m b) as [[]|e]; cbn [bind] in H; [|discriminate].
  destruct (decompress_context lib m b) as [ctx|e]; cbn [bind] in H;
    [|discriminate].
  destruct (decompress_loop lib m ctx (y_strings b)) as [[yh os]|e];
    cbn [bind] in H; [|discriminate].
  destruct (tf_concat yh) as [y|e]; cbn [bind] in H; [|discriminate].
  destruct (to_pixels (x_shape b) (synthesis_transform m y)) as [p|e] eqn:P;
    cbn [bind] in H; [|discriminate].
  inversion H; subst. exact P.
Qed.

(** X3.  In [evaluate], the image decoded from the tuple of an image is an
    8-bit image no larger than the one that was compressed. *)
Theorem evaluate_image_fits (lib : tfc) (m : ConvCharm) (x : image)
  (pixels : image) (y_hat : tensor) :
  evaluate_image lib m x = Ok (pixels, y_hat) ->
  is_uint8 pixels /\
  fits (Z.of_nat (length x), Z.of_nat (length (hd [] x))) pixels.
Proof.
  unfold evaluate_image. intros H.
  destruct (compress lib m x) as [b|e] eqn:C; cbn [bind] in H;
    [|discriminate].
  destruct (compress_tuple_facts _ _ _ C) as (_ & Hx).
  apply decompress_fn_pixels in H. rewrite Hx in H.
  split; [exact (to_pixels_is_uint8 _ _ H)|].
  eapply to_pixels_fits; [| |exact H]; cbn; lia.
Qed.

Lemma toy_model10_evaluate :
  evaluate_image Toy.lib Toy.model10 Toy.picture =
  Ok ([[[60; 61; 62]]],
      Toy.one_pixel (map (fun i => inject_Z (60 + Z.of_nat i)) (seq 0 10))).
Proof. vm_compute. reflexivity. Qed.

Lemma evaluate_image_fits_witness :
  is_uint8 [[[60; 61; 62]]] /\
  fits (Z.of_nat (length Toy.picture), Z.of_nat (length (hd [] Toy.picture)))
       [[[60; 61; 62]]].
Proof.
  exact (evaluate_image_fits _ _ _ toy_model10_evaluate).
Defined.

(* ------------------------------------------------------------------ *)
(** ** Support without a bound, and without support *)

(** X4.  With a negative [max_support_slices], in every pass the support
    of slice [i] is all of the [i] slices decoded before it. *)
Theorem unbounded_support_is_all_earlier
  (lib : tfc) (m : ConvCharm) support (ys : list tensor) (i : nat) :
  max_support_slices m < 0 ->
  forward_pass lib m support ys ->
  (i < length ys)%nat ->
  support i = Ok (firstn i ys).
Proof.
  intros Hk Hp Hi.
  rewrite (forward_pass_state Hp Hi).
  now rewrite support_slices_unbounded.
Qed.

Lemma demo_unbounded10_run :
  decompress_trace Toy.lib Demo.unbounded10 (Toy.stream Demo.unbounded10) =
  Ok ([[[60; 61; 62]]],
      Toy.one_pixel (map (fun i => inject_Z (60 + Z.of_nat i)) (seq 0 10)),
      Toy.slices_from 60 10).
Proof. vm_compute. reflexivity. Qed.

(** With ten slices and no bound, slice 9 is conditioned on slices 0 to
    8. *)
Lemma unbounded_support_is_all_earlier_witness :
  decompress_support Toy.lib Demo.unbounded10 (Toy.stream Demo.unbounded10) 9
  = Ok (Toy.slices_from 60 9).
Proof.
  assert (Hk : max_support_slices Demo.unbounded10 < 0)
    by (vm_compute; reflexivity).
  assert (Hi : (9 < length (Toy.slices_from 60 10))%nat) by (vm_compute; lia).
  exact (unbounded_support_is_all_earlier Hk
           (pass_decompress Toy.lib Demo.unbounded10 _ demo_unbounded10_run)
           Hi).
Defined.







Lemma toy_model10_run_other :
  decompress_trace Toy.lib Toy.model10 (Demo.other_last Toy.model10) =
  Ok ([[[60; 61; 62]]],
      Toy.one_pixel
        (map (fun i => inject_Z (60 + Z.of_nat i)) (seq 0 9) ++ [3%Q]),
      Toy.slices_from 60 9 ++ [Toy.one_pixel [3%Q]]).
Proof. vm_compute. reflexivity. Qed.

(** Two calls of [decompress] that differ in the string of slice 9 decode
    the same slice 8. *)
Lemma decompress_is_causal_witness :
  nth_error (Toy.slices_from 60 10) 8 =
  nth_error (Toy.slices_from 60 9 ++ [Toy.one_pixel [3%Q]]) 8.
Proof.
  refine (@decompress_is_causal Toy.lib Toy.model10
            (Toy.stream Toy.model10) (Demo.other_last Toy.model10) 8%nat
            _ _ _ _ _ _ toy_model10_run toy_model10_run_other _ _ _ _ _);
    vm_compute; first [reflexivity | lia].
Defined.

(* ------------------------------------------------------------------ *)
(** ** [call] and the lifecycle *)

(** X7.  [call] builds its own entropy models: in any phase of the
    lifecycle, before [fit] as after it, it does not fail for want of an
    entropy model. *)
Theorem call_needs_no_fit (lib : tfc) (m : ConvCharm) (x : tensor)
  (training : bool) :
  in_phase (call_forward lib m x training).
Proof.
  unfold call_forward.
  apply in_phase_bind.
  { unfold call_context.
    apply in_phase_bind; [apply in_phase_tf_split2|]. intros [? ?] _.
    apply in_phase_bind; [apply in_phase_tf_split|]. intros ? _. exact I. }
  intros [ctx y_slices] _.
  apply in_phase_bind.
  { unfold call_loop. apply in_phase_slice_loop. intros i y acc.
    unfold call_step.
    apply in_phase_bind; [apply in_phase_slice_params|].
    intros [mu sigma] _. exact I. }
  intros [ys os] _.
  apply in_phase_bind; [apply in_phase_tf_concat|]. intros y_hat _. exact I.
Qed.

(** X8.  The entropy model that [fit] freezes for the slices differs from
    the one [call] trains with in its [compression] flag only: both use the
    scale mapping and the number of scales fixed by the constructor; and
    the frozen model of the hyperprior holds the trained prior. *)
Theorem fit_keeps_the_scale_table (w trained : weights) (c : config)
  (m : ConvCharm) :
  init w c = Ok m ->
  em_y (fit trained m) =
    Some {| ls_num_scales := ls_num_scales (call_em_y m);
            ls_scale_fn := ls_scale_fn (call_em_y m);
            ls_compression := true |} /\
  ls_compression (call_em_y m) = false /\
  ls_num_scales (call_em_y (fit trained m)) = c_num_scales c /\
  ls_scale_fn (call_em_y (fit trained m)) =
    make_scale_fn (c_num_scales c) (c_scale_min c) (c_scale_max c) /\
  em_z (fit trained m) =
    Some {| cb_prior := hyperprior (fit trained m);
            cb_compression := true |}.
Proof.
  intros Hi. pose proof (init_scale_fn _ _ Hi) as Hs.
  assert (Hn : num_scales m = c_num_scales c).
  { unfold init in Hi.
    destruct (floordiv _ _) as [size|e]; cbn [bind] in Hi; [|discriminate].
    destruct (comprehension (fun i => SliceTransform _ _ (w_cc_mean w i)) _)
      as [means|e]; cbn [bind] in Hi; [|discriminate].
    destruct (comprehension
                (fun i => SliceTransform _ _ (w_cc_scale w i)) _)
      as [scales|e]; cbn [bind] in Hi; [|discriminate].
    destruct (build _ _) as [[]|e]; cbn [bind] in Hi; [|discriminate].
    inversion Hi. reflexivity. }
  repeat split; cbn; auto.
Qed.

Lemma fit_keeps_the_scale_table_witness :
  ls_num_scales (call_em_y (fit (Toy.nets 10 1) Toy.fresh10)) = 64.
Proof.
  exact (proj1 (proj2 (proj2 (@fit_keeps_the_scale_table
                                _ (Toy.nets 10 1) _ _ toy_fresh10)))).
Defined.

(* ------------------------------------------------------------------ *)
(** ** Channel counts *)

Lemma py_slice_length (A : Type) (start stop : Z) (l : list A) :
  0 <= start -> 0 <= stop ->
  length (py_slice start stop l) =
  Z.to_nat (Z.min stop (Z.of_nat (length l))
            - Z.min start (Z.of_nat (length l))).
Proof.
  intros Hs He. unfold py_slice, py_bound.
  destruct (start <? 0) eqn:E1; [apply Z.ltb_lt in E1; lia|].
  destruct (stop <? 0) eqn:E2; [apply Z.ltb_lt in E2; lia|].
  rewrite length_firstn, length_skipn. lia.
Qed.

Lemma context_slice_channels (m : ConvCharm) (latent : tensor) (i : nat) :
  0 <= slice_size m ->
  channels (context_slice m i latent) =
  context_width (Z.of_nat (channels latent)) (slice_size m) i.
Proof.
  intros Hs. unfold context_slice, context_width.
  rewrite channels_slice_channels, py_slice_length by nia.
  fold (channels latent). nia.
Qed.

Lemma tf_split2_channels_snd (t a b : tensor) :
  tf_split2 t = Ok (a, b) ->
  Z.of_nat (channels b) = Z.of_nat (channels t) / 2.
Proof.
  intros H. destruct (tf_split2_channels _ H) as [_ Hd].
  revert H. unfold tf_split2, tf_split.
  change (2 <? 1) with false. cbv iota.
  destruct (Z.of_nat (channels t) mod 2 =? 0) eqn:E;
    cbn [negb bind]; [|discriminate].
  change (py_range 2) with [0%nat; 1%nat]. cbn [map].
  intros [= <- <-].
  rewrite channels_slice_channels. fold (channels t).
  assert (Hp : 0 <= Z.of_nat (channels t) / 2) by (apply Z.div_pos; lia).
  assert (Hone : forall x, match x with
                           | 0 => 0
                           | Z.pos p => Z.pos p
                           | Z.neg p => Z.neg p
                           end = x) by (intros []; reflexivity).
  rewrite ?Hone. change (Z.of_nat 1) with 1. rewrite ?Z.mul_1_l.
  rewrite py_slice_length by lia.
  fold (channels t). lia.
Qed.

(** X9.  For a constructed model whose hyper-synthesis output has the
    [latent_depth] channels of its last layer, [latent_means_slice] and
    [latent_scales_slice] of slice [i] have
    [min(slice_size, max(0, latent_depth / 2 - i * slice_size))] channels:
    [slice_size] for a slice of the lower half, none for a slice of the
    upper half. *)
Theorem hyper_context_width (w : weights) (c : config) (m : ConvCharm)
  (lms means scales : tensor) (i : nat) :
  init w c = Ok m ->
  Z.of_nat (channels lms) = c_latent_depth c ->
  tf_split2 lms = Ok (means, scales) ->
  channels (context_slice m i means) =
    context_width (c_latent_depth c / 2) (slice_size m) i /\
  channels (context_slice m i scales) =
    context_width (c_latent_depth c / 2) (slice_size m) i /\
  (2 * (Z.of_nat i + 1) <= num_slices m ->
   context_width (c_latent_depth c / 2) (slice_size m) i =
   Z.to_nat (slice_size m)) /\
  (num_slices m <= 2 * Z.of_nat i ->
   context_width (c_latent_depth c / 2) (slice_size m) i = 0%nat).
Proof.
  intros Hi Hc Hsplit.
  destruct (init_facts _ _ Hi) as (_ & Hn & _ & Hmul & Heven).
  destruct (tf_split2_channels _ Hsplit) as [Ha Hd].
  pose proof (tf_split2_channels_snd _ Hsplit) as Hb.
  assert (Hs : 0 <= slice_size m) by nia.
  rewrite !context_slice_channels by assumption.
  rewrite Ha, Hb, Hc. repeat split; unfold context_width.
  - intros Hlow. rewrite <- Hc, <- Hd in Hmul. rewrite <- Hc. nia.
  - intros Hup. rewrite <- Hc, <- Hd in Hmul. rewrite <- Hc. nia.
Qed.

Lemma demo_fresh320 :
  init (Toy.nets 320 32) (Toy.conf 320 10 5 64) = Ok Demo.fresh320.
Proof. reflexivity. Qed.

Lemma demo_latent320_split :
  tf_split2 Demo.latent320 =
  Ok (Toy.one_pixel (repeat 0%Q 160), Toy.one_pixel (repeat 0%Q 160)).
Proof. vm_compute. reflexivity. Qed.

(** Slice 4 of the default configuration gets 32 channels of context. *)
Lemma hyper_context_width_witness :
  channels (context_slice Demo.fresh320 4 (Toy.one_pixel (repeat 0%Q 160))) =
  context_width (320 / 2) 32 4.
Proof.
  refine (proj1 (@hyper_context_width _ _ _ Demo.latent320 _ _ 4%nat
                   demo_fresh320 _ demo_latent320_split)).
  vm_compute. reflexivity.
Defined.

(** X10.  For a constructed model and a latent [y] of [latent_depth]
    channels, the split of [y] succeeds and gives [num_slices] slices of
    [slice_size] channels each. *)
Theorem y_slices_have_slice_size (w : weights) (c : config) (m : ConvCharm)
  (y : tensor) :
  init w c = Ok m ->
  Z.of_nat (channels y) = c_latent_depth c ->
  exists y_slices,
    tf_split y (num_slices m) = Ok y_slices /\
    Z.of_nat (length y_slices) = num_slices m /\
    Forall (fun s => Z.of_nat (channels s) = slice_size m) y_slices.
Proof.
  intros Hi Hc.
  destruct (init_facts _ _ Hi) as (_ & Hn & _ & Hmul & _).
  assert (Hs : 0 <= slice_size m) by nia.
  assert (Hdiv : Z.of_nat (channels y) / num_slices m = slice_size m).
  { rewrite Hc, Hmul, Z.mul_comm. apply Z.div_mul. lia. }
  assert (Hmod : Z.of_nat (channels y) mod num_slices m = 0).
  { rewrite Hc, Hmul, Z.mul_comm. apply Z.mod_mul. lia. }
  unfold tf_split.
  destruct (num_slices m <? 1) eqn:E; [apply Z.ltb_lt in E; lia|].
  rewrite Hmod, Hdiv. cbn [Z.eqb negb].
  eexists. split; [reflexivity|]. split.
  - unfold py_range. rewrite length_map, length_seq. lia.
  - apply Forall_map. apply Forall_forall. intros i Hin.
    unfold py_range in Hin. apply in_seq in Hin.
    rewrite channels_slice_channels, py_slice_length by nia.
    fold (channels y). nia.
Qed.

(** The ten channels of the ten-slice instance give ten slices of one
    channel. *)
Lemma y_slices_have_slice_size_witness :
  exists y_slices,
    tf_split (Toy.one_pixel (repeat 0%Q 10)) (num_slices Toy.fresh10)
    = Ok y_slices /\
    Z.of_nat (length y_slices) = num_slices Toy.fresh10 /\
    Forall (fun s => Z.of_nat (channels s) = slice_size Toy.fresh10) y_slices.
Proof.
  refine (@y_slices_have_slice_size _ _ _ (Toy.one_pixel (repeat 0%Q 10))
            toy_fresh10 _).
  vm_compute. reflexivity.
Defined.

(* ------------------------------------------------------------------ *)
(** ** More on the scale mapping *)

(** X11.  For [0 < scale_min < scale_max] and [num_scales >= 2] every
    value of the scale mapping at an index between [0] and
    [num_scales - 1] lies between [scale_min] and [scale_max]. *)
Theorem scale_fn_within_bounds (w : weights) (c : config) (m : ConvCharm)
  (i : R) :
  init w c = Ok m ->
  (0 < c_scale_min c < c_scale_max c)%R ->
  2 <= c_num_scales c ->
  (0 <= i <= IZR (c_num_scales c) - 1)%R ->
  exists v : R,
    scale_fn m (Fin i) = Fin v /\ (c_scale_min c <= v <= c_scale_max c)%R.
Proof.
  intros Hi [Hmin Hlt] Hn [H0 H1].
  assert (Hmax : (0 < c_scale_max c)%R) by lra.
  rewrite (init_scale_fn _ _ Hi).
  rewrite make_scale_fn_finite by assumption.
  eexists. split; [reflexivity|].
  destruct (scale_fn_spec_ends Hn Hmin Hmax) as [E0 E1].
  split.
  - destruct (Rle_lt_or_eq_dec _ _ H0) as [Hpos| <-]; [|rewrite E0; lra].
    pose proof (@scale_fn_spec_increasing (c_num_scales c) (c_scale_min c)
                  (c_scale_max c) 0 i Hn (conj Hmin Hlt) Hpos) as Hinc.
    rewrite E0 in Hinc. lra.
  - destruct (Rle_lt_or_eq_dec _ _ H1) as [Hbelow| ->]; [|rewrite E1; lra].
    pose proof (@scale_fn_spec_increasing (c_num_scales c) (c_scale_min c)
                  (c_scale_max c) i _ Hn (conj Hmin Hlt) Hbelow) as Hinc.
    rewrite E1 in Hinc. lra.
Qed.

Lemma scale_fn_within_bounds_witness :
  exists v : R,
    scale_fn Toy.fresh10 (Fin 10) = Fin v /\ (11 / 100 <= v <= 256)%R.
Proof.
  refine (@scale_fn_within_bounds _ _ _ 10%R toy_fresh10 _ _ _).
  - cbn. lra.
  - cbn. lia.
  - cbn. lra.
Defined.

(** X12.  For positive bounds and [num_scales >= 2] the scale table is
    geometric: one step of the index multiplies the scale by
    [exp((log(scale_max) - log(scale_min)) / (num_scales - 1))]. *)
Theorem scale_fn_is_geometric (w : weights) (c : config) (m : ConvCharm)
  (i v : R) :
  init w c = Ok m ->
  (0 < c_scale_min c)%R -> (0 < c_scale_max c)%R ->
  2 <= c_num_scales c ->
  scale_fn m (Fin i) = Fin v ->
  scale_fn m (Fin (i + 1)) =
  Fin (v * exp ((ln (c_scale_max c) - ln (c_scale_min c))
                / (IZR (c_num_scales c) - 1))).
Proof.
  intros Hi Hmin Hmax Hn.
  assert (Hd : (0 < IZR (c_num_scales c) - 1)%R).
  { apply IZR_le in Hn. lra. }
  rewrite (init_scale_fn _ _ Hi).
  rewrite !make_scale_fn_finite by assumption.
  intros [= <-]. f_equal. unfold scale_fn_spec.
  rewrite <- exp_plus. f_equal. field. lra.
Qed.

Lemma toy_fresh10_first_scale :
  scale_fn Toy.fresh10 (Fin 0) = Fin (11 / 100).
Proof.
  rewrite (init_scale_fn _ _ toy_fresh10).
  cbn [Toy.conf c_num_scales c_scale_min c_scale_max].
  rewrite make_scale_fn_finite by (try lia; lra).
  f_equal. apply scale_fn_spec_ends; try lia; lra.
Qed.

Lemma scale_fn_is_geometric_witness :
  scale_fn Toy.fresh10 (Fin (0 + 1)) =
  Fin (11 / 100 * exp ((ln 256 - ln (11 / 100)) / (IZR 64 - 1))).
Proof.
  refine (@scale_fn_is_geometric _ _ _ 0%R (11 / 100)%R toy_fresh10 _ _ _ _).
  - cbn. lra.
  - cbn. lra.
  - cbn. lia.
  - exact toy_fresh10_first_scale.
Defined.

(** X13.  The constructor does not look at the sign of [scale_min]: with
    [scale_min <= 0] (and a positive [scale_max], [num_scales >= 1]) the
    model is constructed all the same, and its scale mapping is not a
    number at every index from 0 on. *)
Theorem nonpositive_scale_min_is_nan (w : weights) (c : config)
  (m : ConvCharm) (i : R) :
  init w c = Ok m ->
  (c_scale_min c <= 0)%R -> (0 < c_scale_max c)%R ->
  1 <= c_num_scales c ->
  (0 <= i)%R ->
  scale_fn m (Fin i) = NaN.
Proof.
  intros Hi Hmin Hmax Hn H0.
  assert (Hd : (0 <= IZR (c_num_scales c) - 1)%R).
  { apply IZR_le in Hn. lra. }
  rewrite (init_scale_fn _ _ Hi).
  unfold make_scale_fn, scale_offset, scale_factor.
  rewrite (xlog_pos Hmax). unfold xlog.
  destruct (Rlt_dec 0 (c_scale_min c)) as [H|_]; [lra|].
  destruct (Rlt_dec (c_scale_min c) 0) as [_|_]; [reflexivity|].
  unfold xsub, xneg, xadd, xdiv.
  destruct (Rlt_dec (IZR (c_num_scales c) - 1) 0) as [H|_]; [lra|].
  unfold xmul, xinf_scaled, xinf.
  destruct (Rlt_dec 0 i) as [_|_]; [reflexivity|].
  destruct (Rlt_dec i 0) as [H|_]; [lra|reflexivity].
Qed.

Lemma demo_zero_min :
  init (Toy.nets 10 1) Demo.zero_min_conf = Ok Demo.zero_min.
Proof. reflexivity. Qed.

Lemma nonpositive_scale_min_is_nan_witness :
  scale_fn Demo.zero_min (Fin 3) = NaN.
Proof.
  refine (@nonpositive_scale_min_is_nan _ _ _ 3%R demo_zero_min _ _ _ _).
  - cbn. lra.
  - cbn. lra.
  - cbn. lia.
  - lra.
Defined.

(* ------------------------------------------------------------------ *)
(** ** The learning rate *)

Lemma learning_rate_step (epochs : nat) (lr0 : Q) :
  learning_rate (S epochs) lr0 =
  scheduler (Z.of_nat epochs) (learning_rate epochs lr0).
Proof.
  unfold learning_rate. rewrite seq_S, fold_left_app. reflexivity.
Qed.

(** X14.  Under [scheduler] the learning rate of a training run is cut to
    a tenth once, on entering epoch 1800: it is the initial rate as long as
    at most 1800 epochs have begun, and a tenth of it from then on. *)
Theorem learning_rate_drops_once (epochs : nat) (lr0 : Q) :
  learning_rate epochs lr0 =
  if Z.of_nat epochs <=? 1800 then lr0 else (lr0 * (1 # 10))%Q.
Proof.
  induction epochs as [|n IH]; [reflexivity|].
  rewrite learning_rate_step, IH. unfold scheduler.
  destruct (Z.of_nat n =? 1800) eqn:E.
  - apply Z.eqb_eq in E.
    destruct (Z.of_nat n <=? 1800) eqn:E1; [|apply Z.leb_gt in E1; lia].
    destruct (Z.of_nat (S n) <=? 1800) eqn:E2; [apply Z.leb_le in E2; lia|].
    reflexivity.
  - apply Z.eqb_neq in E.
    destruct (Z.of_nat n <=? 1800) eqn:E1;
      destruct (Z.of_nat (S n) <=? 1800) eqn:E2; try reflexivity.
    + apply Z.leb_le in E1. apply Z.leb_gt in E2. lia.
    + apply Z.leb_gt in E1. apply Z.leb_le in E2. lia.
Qed.

(* ------------------------------------------------------------------ *)
(** ** Pixels *)

Lemma tf_round_integer (q : Q) : exists z : Z, tf_round q = inject_Z z.
Proof.
  unfold tf_round.
  destruct (Qcompare _ _); [destruct (Z.even _)| |]; eauto.
Qed.

Lemma saturate_cast_uint8_integer (z : Z) :
  saturate_cast_uint8 (inject_Z z) = Z.max 0 (Z.min 255 z).
Proof.
  unfold saturate_cast_uint8.
  destruct (Qle_bool (inject_Z z) 0) eqn:E0.
  - apply Qle_bool_iff in E0. change 0%Q with (inject_Z 0) in E0.
    rewrite <- Zle_Qle in E0. lia.
  - assert (H0 : 0 < z).
    { apply Z.lt_nge. intros H. rewrite Zle_Qle in H.
      apply Qle_bool_iff in H. change (inject_Z 0) with 0%Q in H.
      congruence. }
    destruct (Qle_bool 255 (inject_Z z)) eqn:E1.
    + apply Qle_bool_iff in E1. change 255%Q with (inject_Z 255) in E1.
      rewrite <- Zle_Qle in E1. lia.
    + assert (H1 : z < 255).
      { apply Z.lt_nge. intros H. rewrite Zle_Qle in H.
        apply Qle_bool_iff in H. change (inject_Z 255) with 255%Q in H.
        congruence. }
      rewrite Qfloor_Z. lia.
Qed.

Lemma Z_lt_of_Q (a b : Z) : (inject_Z a < inject_Z b)%Q -> a < b.
Proof. intros H. rewrite Zlt_Qlt. exact H. Qed.

(** X15.  A pixel of the image returned by [decompress] is the nearest
    integer to the value of the synthesis output when that lies between 0
    and 255 (at most one half away from it), 0 when the value is at most 0
    and 255 when it is at least 255. *)
Theorem pixel_is_nearest_in_range (q : Q) :
  ((0 <= q <= 255)%Q ->
   (q - (1 # 2) <= inject_Z (saturate_cast_uint8 (tf_round q))
    /\ inject_Z (saturate_cast_uint8 (tf_round q)) <= q + (1 # 2))%Q) /\
  ((q <= 0)%Q -> saturate_cast_uint8 (tf_round q) = 0) /\
  ((255 <= q)%Q -> saturate_cast_uint8 (tf_round q) = 255).
Proof.
  destruct (tf_round_nearest q) as [Hlo Hhi].
  destruct (tf_round_integer q) as [z Hz].
  rewrite Hz in *. rewrite saturate_cast_uint8_integer.
  split; [|split].
  - intros [H0 H1].
    assert (Hz0 : -1 < z).
    { apply Z_lt_of_Q. change (inject_Z (-1)) with (-1 # 1)%Q. Lqa.lra. }
    assert (Hz1 : z < 256).
    { apply Z_lt_of_Q. change (inject_Z 256) with (256 # 1)%Q. Lqa.lra. }
    rewrite Z.min_r, Z.max_r by lia. split; assumption.
  - intros H. assert (Hz0 : z < 1).
    { apply Z_lt_of_Q. change (inject_Z 1) with (1 # 1)%Q. Lqa.lra. }
    lia.
  - intros H. assert (Hz1 : 254 < z).
    { apply Z_lt_of_Q. change (inject_Z 254) with (254 # 1)%Q. Lqa.lra. }
    lia.
Qed.

Lemma pixel_is_nearest_in_range_witness :
  saturate_cast_uint8 (tf_round 300) = 255.
Proof.
  refine (proj2 (proj2 (pixel_is_nearest_in_range 300)) _).
  vm_compute. discriminate.
Defined.

Lemma py_upto_exact (A : Type) (k : Z) (l : list A) :
  0 <= k <= Z.of_nat (length l) -> Z.of_nat (length (py_upto k l)) = k.
Proof.
  intros Hk. rewrite py_upto_firstn by lia. rewrite length_firstn. lia.
Qed.

Lemma in_firstn_in (A : Type) (n : nat) (l : list A) (a : A) :
  In a (firstn n l) -> In a l.
Proof.
  revert l. induction n as [|n IH]; intros [|b l] H; cbn in H;
    try contradiction.
  destruct H as [->|H]; [now left|right; now apply IH].
Qed.

(** X16.  When the first entry of the synthesis output is at least as
    large as [x_shape], the image returned for it has exactly the height
    and width of [x_shape]. *)
Theorem cropped_image_has_x_shape (hw : shape2) (im : fmap3) (rest : tensor)
  (pixels : image) :
  to_pixels hw (im :: rest) = Ok pixels ->
  0 <= fst hw <= Z.of_nat (length im) ->
  0 <= snd hw ->
  Forall (fun row => snd hw <= Z.of_nat (length row)) im ->
  Z.of_nat (length pixels) = fst hw /\
  Forall (fun row => Z.of_nat (length row) = snd hw) pixels.
Proof.
  unfold to_pixels, crop_first. cbn [bind]. intros [= <-] Hh Hw Hrows.
  rewrite !length_map. split; [now apply py_upto_exact|].
  apply Forall_map. apply Forall_map. apply Forall_forall. intros row Hin.
  rewrite length_map. apply py_upto_exact.
  assert (Hrow : In row im).
  { rewrite py_upto_firstn in Hin by lia. exact (in_firstn_in _ _ _ Hin). }
  rewrite Forall_forall in Hrows. specialize (Hrows row Hrow). lia.
Qed.

Lemma demo_output_pixels :
  to_pixels (2, 1) Demo.output = Ok [[[4; 255; 0]]; [[0; 2; 3]]].
Proof. vm_compute. reflexivity. Qed.

Lemma cropped_image_has_x_shape_witness :
  Z.of_nat (length [[[4; 255; 0]]; [[0; 2; 3]]]) = 2 /\
  Forall (fun row : list (list Z) => Z.of_nat (length row) = 1)
         [[[4; 255; 0]]; [[0; 2; 3]]].
Proof.
  refine (@cropped_image_has_x_shape (2, 1) _ _ _ demo_output_pixels _ _ _).
  - vm_compute. split; discriminate.
  - vm_compute. discriminate.
  - repeat constructor; vm_compute; discriminate.
Defined.

(* ================================================================== *)
(** * The plan of the Swin transformer *)

Lemma comprehension_Forall2 (A B : Type) (g : A -> result B) (l : list A) :
  forall r, comprehension g l = Ok r -> Forall2 (fun x y => g x = Ok y) l r.
Proof.
  induction l as [|x l IH]; intros r H; cbn in H.
  - inversion H. constructor.
  - destruct (g x) as [y|e] eqn:G; cbn [bind] in H; [|discriminate].
    destruct (comprehension g l) as [r'|e]; cbn [bind] in H; [|discriminate].
    inversion H; subst. constructor; auto.
Qed.

Lemma Forall2_nth (A B : Type) (P : A -> B -> Prop) (l : list A)
  (r : list B) :
  Forall2 P l r ->
  forall i a b, nth_error l i = Some a -> nth_error r i = Some b -> P a b.
Proof.
  induction 1 as [|x y l l' Hxy H IH]; intros [|i] a b Ha Hb; cbn in *;
    try discriminate.
  - inversion Ha; inversion Hb; subst. exact Hxy.
  - eapply IH; eauto.
Qed.

Lemma Forall2_seq_nth (B : Type) (P : nat -> B -> Prop) (n : nat)
  (r : list B) :
  Forall2 P (seq 0 n) r ->
  length r = n /\
  forall i b, nth_error r i = Some b -> (i < n)%nat /\ P i b.
Proof.
  intros H. pose proof (Forall2_length H) as L. rewrite length_seq in L.
  split; [auto|]. intros i b Hb.
  assert (Hi : (i < n)%nat) by (rewrite L; apply nth_error_Some; congruence).
  split; [exact Hi|].
  assert (Hs : nth_error (seq 0 n) i = Some i).
  { rewrite nth_error_nth' with (d := O) by (rewrite length_seq; lia).
    now rewrite seq_nth. }
  exact (Forall2_nth H _ Hs Hb).
Qed.

Lemma py_index_ok (A : Type) (l : list A) (i : nat) (a : A) :
  py_index l i = Ok a -> nth_error l i = Some a.
Proof.
  unfold py_index. destruct (nth_error l i); intros H; inversion H.
  reflexivity.
Qed.

Lemma stage_dims_nth (embed : Z) (n i : nat) :
  (i < n)%nat ->
  nth_error (Swin.stage_dims embed n) i = Some (embed * 2 ^ Z.of_nat i).
Proof.
  intros Hi. unfold Swin.stage_dims.
  rewrite nth_error_map.
  rewrite nth_error_nth' with (d := O) by (rewrite length_seq; lia).
  now rewrite seq_nth.
Qed.

Lemma stage_out_dims_nth (embed : Z) (n i : nat) :
  (i < n)%nat ->
  nth_error (Swin.stage_out_dims (Swin.stage_dims embed n)) i =
  Some (if (S i <? n)%nat then Some (embed * 2 ^ Z.of_nat (S i)) else None).
Proof.
  intros Hi. unfold Swin.stage_out_dims, Swin.stage_dims.
  destruct n as [|n]; [lia|].
  cbn [seq map tl]. rewrite <- seq_shift, map_map.
  destruct (S i <? S n)%nat eqn:E.
  - apply Nat.ltb_lt in E.
    rewrite nth_error_app1 by (rewrite !length_map, length_seq; lia).
    rewrite !nth_error_map.
    rewrite nth_error_nth' with (d := O) by (rewrite length_seq; lia).
    rewrite seq_nth by lia. reflexivity.
  - apply Nat.ltb_ge in E. assert (i = n) by lia. subst i.
    rewrite nth_error_app2 by (rewrite !length_map, length_seq; lia).
    rewrite !length_map, length_seq, Nat.sub_diag. reflexivity.
Qed.

(** What the constructor computes for layer [i]. *)
Lemma layer_facts (embed : Z) (pg : Z * Z) (depths num_heads : list Z)
  head_dims windows ratios (dpr : list Q) (n i : nat) (a : Swin.layer_args) :
  (i < n)%nat ->
  Swin.layer (Swin.stage_dims embed n)
             (Swin.stage_out_dims (Swin.stage_dims embed n))
             pg depths num_heads head_dims windows ratios dpr n i = Ok a ->
  Swin.dim a = embed * 2 ^ Z.of_nat i /\
  Swin.out_dim a =
    (if (S i <? n)%nat then Some (embed * 2 ^ Z.of_nat (S i)) else None) /\
  Swin.input_resolution a =
    (fst pg / 2 ^ Z.of_nat i, snd pg / 2 ^ Z.of_nat i) /\
  Swin.downsample a = (S i <? n)%nat /\
  nth_error depths i = Some (Swin.depth a) /\
  Swin.drop_path a =
    py_slice (Swin.py_sum (firstn i depths))
             (Swin.py_sum (firstn (S i) depths)) dpr.
Proof.
  intros Hi H. unfold Swin.layer in H.
  destruct (py_index (Swin.stage_dims embed n) i) as [d|e] eqn:D;
    cbn [bind] in H; [|discriminate].
  destruct (py_index (Swin.stage_out_dims _) i) as [o|e] eqn:Oe;
    cbn [bind] in H; [|discriminate].
  destruct (py_index depths i) as [dp|e] eqn:Dp; cbn [bind] in H;
    [|discriminate].
  destruct (py_index num_heads i) as [h|e]; cbn [bind] in H; [|discriminate].
  destruct (py_index head_dims i) as [hd|e]; cbn [bind] in H;
    [|discriminate].
  destruct (py_index windows i) as [ws|e]; cbn [bind] in H; [|discriminate].
  destruct (py_index ratios i) as [r|e]; cbn [bind] in H; [|discriminate].
  apply py_index_ok in D, Oe, Dp.
  rewrite stage_dims_nth in D by assumption.
  rewrite stage_out_dims_nth in Oe by assumption.
  injection D as <-. injection Oe as <-. injection H as <-.
  cbn [Swin.dim Swin.out_dim Swin.input_resolution Swin.downsample
       Swin.depth Swin.drop_path].
  split; [reflexivity|]. split; [reflexivity|]. split; [reflexivity|].
  split; [|split; [exact Dp|]].
  - destruct (S i <? n)%nat eqn:E.
    + apply Nat.ltb_lt in E. apply Z.ltb_lt. lia.
    + apply Nat.ltb_ge in E. apply Z.ltb_ge. lia.
  - rewrite !py_upto_firstn by lia.
    replace (Z.to_nat (Z.of_nat i + 1)) with (S i) by lia.
    now rewrite Nat2Z.id.
Qed.

Lemma init_layers (img : Swin.one_or_many Z) (patch embed : Z)
  (depths num_heads : list Z) head_dims windows ratios (dpr : list Q)
  (net : Swin.SwinTransformer) :
  Swin.init img patch embed depths num_heads head_dims windows ratios dpr
  = Ok net ->
  Swin.num_layers net = length depths /\
  Swin.num_features net = Swin.features embed (length depths) /\
  length (Swin.swin_layers net) = length depths /\
  forall i a,
    nth_error (Swin.swin_layers net) i = Some a ->
    (i < length depths)%nat /\
    Swin.layer (Swin.stage_dims embed (length depths))
               (Swin.stage_out_dims (Swin.stage_dims embed (length depths)))
               (Swin.patch_grid net) depths num_heads
               (Swin.to_ntuple (length depths) head_dims)
               (Swin.to_ntuple (length depths) windows)
               (Swin.to_ntuple (length depths) ratios) dpr (length depths) i
    = Ok a.
Proof.
  unfold Swin.init. intros H.
  destruct (Swin.grid _ _) as [pg|e]; cbn [bind] in H; [|discriminate].
  destruct (comprehension _ _) as [layers|e] eqn:C; cbn [bind] in H;
    [|discriminate].
  injection H as <-.
  cbn [Swin.num_layers Swin.num_features Swin.swin_layers Swin.patch_grid].
  apply comprehension_Forall2 in C. apply Forall2_seq_nth in C.
  destruct C as [L C].
  split; [reflexivity|]. split; [reflexivity|]. split; [exact L|].
  exact C.
Qed.

(** X17.  In a constructed Swin transformer each layer but the last
    downsamples, and its output width is the input width of the next
    layer, twice its own; the next layer works at half its resolution
    (rounded down). *)
Theorem swin_stages_chain (img : Swin.one_or_many Z) (patch embed : Z)
  (depths num_heads : list Z) head_dims windows ratios (dpr : list Q)
  (net : Swin.SwinTransformer) (i : nat) (a b : Swin.layer_args) :
  Swin.init img patch embed depths num_heads head_dims windows ratios dpr
  = Ok net ->
  nth_error (Swin.swin_layers net) i = Some a ->
  nth_error (Swin.swin_layers net) (S i) = Some b ->
  Swin.downsample a = true /\
  Swin.out_dim a = Some (Swin.dim b) /\
  Swin.dim b = 2 * Swin.dim a /\
  Swin.input_resolution b =
    (fst (Swin.input_resolution a) / 2, snd (Swin.input_resolution a) / 2).
Proof.
  intros H Ha Hb.
  destruct (init_layers _ _ _ _ _ _ _ _ _ H) as (_ & _ & _ & Hl).
  destruct (Hl _ _ Ha) as [Hi La]. destruct (Hl _ _ Hb) as [Hi' Lb].
  destruct (layer_facts _ _ _ _ _ _ _ _ Hi La)
    as (Da & Oa & Ra & Sa & _ & _).
  destruct (layer_facts _ _ _ _ _ _ _ _ Hi' Lb)
    as (Db & _ & Rb & _ & _ & _).
  assert (E : (S i <? length depths)%nat = true) by now apply Nat.ltb_lt.
  rewrite E in Oa, Sa.
  assert (Hp : 2 ^ Z.of_nat (S i) = 2 ^ Z.of_nat i * 2).
  { rewrite Nat2Z.inj_succ, Z.pow_succ_r by lia. lia. }
  split; [exact Sa|]. split; [now rewrite Oa, Db|].
  split; [rewrite Da, Db, Hp; lia|].
  rewrite Ra, Rb, Hp. cbn [fst snd].
  assert (H2 : 0 < 2 ^ Z.of_nat i) by (apply Z.pow_pos_nonneg; lia).
  rewrite !Z.div_div by lia. reflexivity.
Qed.

Lemma swin_default_net : Swin.default = Ok Swin.default_net.
Proof. vm_compute. reflexivity. Qed.

(** The second and third stages of the default transformer. *)
Lemma swin_stages_chain_witness :
  Swin.downsample (Swin.default_layer 1) = true /\
  Swin.out_dim (Swin.default_layer 1) = Some (Swin.dim (Swin.default_layer 2))
  /\
  Swin.dim (Swin.default_layer 2) = 2 * Swin.dim (Swin.default_layer 1) /\
  Swin.input_resolution (Swin.default_layer 2) =
    (fst (Swin.input_resolution (Swin.default_layer 1)) / 2,
     snd (Swin.input_resolution (Swin.default_layer 1)) / 2).
Proof.
  refine (@swin_stages_chain _ _ _ _ _ _ _ _ _ _ 1%nat _ _
            swin_default_net _ _); vm_compute; reflexivity.
Defined.

Lemma firstn_S_nth (A : Type) (l : list A) (n : nat) (x : A) :
  nth_error l n = Some x -> firstn (S n) l = firstn n l ++ [x].
Proof.
  revert l. induction n as [|n IH]; intros [|a l] Hx; cbn in *;
    try discriminate.
  - now inversion Hx.
  - f_equal. now apply IH.
Qed.

(** X18.  The last layer of a constructed Swin transformer does not
    downsample, has no output width of its own, and its width is
    [num_features]. *)
Theorem swin_last_stage (img : Swin.one_or_many Z) (patch embed : Z)
  (depths num_heads : list Z) head_dims windows ratios (dpr : list Q)
  (net : Swin.SwinTransformer) (i : nat) (a : Swin.layer_args) :
  Swin.init img patch embed depths num_heads head_dims windows ratios dpr
  = Ok net ->
  nth_error (Swin.swin_layers net) i = Some a ->
  S i = Swin.num_layers net ->
  Swin.downsample a = false /\
  Swin.out_dim a = None /\
  Swin.dim a = Swin.num_features net.
Proof.
  intros H Ha Hlast.
  destruct (init_layers _ _ _ _ _ _ _ _ _ H) as (Hn & Hf & _ & Hl).
  destruct (Hl _ _ Ha) as [Hi La].
  destruct (layer_facts _ _ _ _ _ _ _ _ Hi La) as (Da & Oa & _ & Sa & _ & _).
  rewrite Hn in Hlast.
  assert (E : (S i <? length depths)%nat = false)
    by (apply Nat.ltb_ge; lia).
  rewrite E in Oa, Sa.
  split; [exact Sa|]. split; [exact Oa|].
  rewrite Da, Hf, <- Hlast. reflexivity.
Qed.

Lemma swin_last_stage_witness :
  Swin.downsample (Swin.default_layer 3) = false /\
  Swin.out_dim (Swin.default_layer 3) = None /\
  Swin.dim (Swin.default_layer 3) = Swin.num_features Swin.default_net.
Proof.
  refine (@swin_last_stage _ _ _ _ _ _ _ _ _ _ 3%nat _
            swin_default_net _ _); vm_compute; reflexivity.
Defined.

(* ------------------------------------------------------------------ *)
(** ** The drop-path rates *)

Lemma fold_left_add (l : list Z) (acc : Z) :
  fold_left Z.add l acc = acc + fold_left Z.add l 0.
Proof.
  revert acc. induction l as [|x l IH]; intros acc; cbn; [lia|].
  rewrite IH, (IH x). lia.
Qed.

Lemma py_sum_app (l1 l2 : list Z) :
  Swin.py_sum (l1 ++ l2) = Swin.py_sum l1 + Swin.py_sum l2.
Proof.
  unfold Swin.py_sum. rewrite fold_left_app. apply fold_left_add.
Qed.

Lemma py_sum_nonneg (l : list Z) :
  Forall (fun d => 0 <= d) l -> 0 <= Swin.py_sum l.
Proof.
  induction 1 as [|x l Hx Hl IH]; [cbn; lia|].
  change (x :: l) with ([x] ++ l). rewrite py_sum_app.
  change (Swin.py_sum [x]) with (0 + x). lia.
Qed.

Lemma Forall_skipn (A : Type) (P : A -> Prop) (n : nat) (l : list A) :
  Forall P l -> Forall P (skipn n l).
Proof.
  revert l. induction n as [|n IH]; intros l H; [exact H|].
  destruct H as [|x l Hx Hl]; [constructor|]. now apply IH.
Qed.

(** The partial sums of [depths] grow up to the whole sum. *)
Lemma py_sum_prefix (depths : list Z) (i : nat) (d : Z) :
  Forall (fun d => 0 <= d) depths ->
  nth_error depths i = Some d ->
  0 <= Swin.py_sum (firstn i depths) /\
  0 <= d /\
  Swin.py_sum (firstn (S i) depths) = Swin.py_sum (firstn i depths) + d /\
  Swin.py_sum (firstn (S i) depths) <= Swin.py_sum depths.
Proof.
  intros Hpos Hd.
  assert (H0 : 0 <= d).
  { rewrite Forall_forall in Hpos. apply Hpos. eapply nth_error_In; eauto. }
  assert (Hpre : 0 <= Swin.py_sum (firstn i depths)).
  { apply py_sum_nonneg. rewrite <- (firstn_skipn i depths) in Hpos.
    apply Forall_app in Hpos. tauto. }
  assert (Hpost : 0 <= Swin.py_sum (skipn (S i) depths)).
  { apply py_sum_nonneg. now apply Forall_skipn. }
  rewrite (firstn_S_nth _ _ Hd), py_sum_app.
  change (Swin.py_sum [d]) with (0 + d).
  repeat split; try lia.
  rewrite <- (firstn_skipn (S i) depths) at 2.
  rewrite py_sum_app, (firstn_S_nth _ _ Hd), py_sum_app.
  change (Swin.py_sum [d]) with (0 + d). lia.
Qed.

Lemma firstn_add (A : Type) (a c : nat) (l : list A) :
  firstn (a + c) l = firstn a l ++ firstn c (skipn a l).
Proof.
  revert l. induction a as [|a IH]; intros l; [reflexivity|].
  destruct l as [|x l]; cbn; [now rewrite firstn_nil|].
  now rewrite IH.
Qed.

(** A slice that starts where a prefix ends extends the prefix. *)
Lemma firstn_py_slice (A : Type) (a b : Z) (l : list A) :
  0 <= a <= b ->
  firstn (Z.to_nat a) l ++ py_slice a b l = firstn (Z.to_nat b) l.
Proof.
  intros Hab. unfold py_slice, py_bound.
  destruct (a <? 0) eqn:E1; [apply Z.ltb_lt in E1; lia|].
  destruct (b <? 0) eqn:E2; [apply Z.ltb_lt in E2; lia|].
  destruct (Z.le_gt_cases (Z.of_nat (length l)) a) as [Hbig|Hsmall].
  - rewrite (Z.min_r a), (Z.min_r b) by lia.
    rewrite Z.sub_diag. cbn [Z.to_nat firstn]. rewrite app_nil_r.
    rewrite !firstn_all2 by lia. reflexivity.
  - rewrite (Z.min_l a) by lia.
    replace (Z.to_nat b) with (Z.to_nat a + Z.to_nat (b - a))%nat by lia.
    rewrite firstn_add. f_equal.
    destruct (Z.le_gt_cases b (Z.of_nat (length l))) as [Hb|Hb].
    + rewrite Z.min_l by lia. reflexivity.
    + rewrite Z.min_r by lia.
      rewrite !firstn_all2 by (rewrite length_skipn; lia). reflexivity.
Qed.

(** X19.  When no stage has a negative depth and [tf.linspace] has
    returned [sum(depths)] rates, the constructor deals the rates out to
    the layers in order and without a gap: each layer gets as many rates
    as it has blocks, and the rates of all layers, one after the other,
    are the whole list. *)
Theorem swin_drop_path_partition (img : Swin.one_or_many Z) (patch embed : Z)
  (depths num_heads : list Z) head_dims windows ratios (dpr : list Q)
  (net : Swin.SwinTransformer) :
  Swin.init img patch embed depths num_heads head_dims windows ratios dpr
  = Ok net ->
  Forall (fun d => 0 <= d) depths ->
  Z.of_nat (length dpr) = Swin.py_sum depths ->
  concat (map Swin.drop_path (Swin.swin_layers net)) = dpr /\
  Forall (fun a => Z.of_nat (length (Swin.drop_path a)) = Swin.depth a)
         (Swin.swin_layers net).
Proof.
  intros H Hpos Hlen.
  destruct (init_layers _ _ _ _ _ _ _ _ _ H) as (_ & _ & Ln & Hl).
  assert (Hfacts : forall i a,
             nth_error (Swin.swin_layers net) i = Some a ->
             nth_error depths i = Some (Swin.depth a) /\
             Swin.drop_path a =
               py_slice (Swin.py_sum (firstn i depths))
                        (Swin.py_sum (firstn (S i) depths)) dpr).
  { intros i a Ha. destruct (Hl _ _ Ha) as [Hi La].
    destruct (layer_facts _ _ _ _ _ _ _ _ Hi La) as (_ & _ & _ & _ & D & P).
    now split. }
  split.
  - assert (Hk : forall k, (k <= length (Swin.swin_layers net))%nat ->
               concat (map Swin.drop_path (firstn k (Swin.swin_layers net)))
               = firstn (Z.to_nat (Swin.py_sum (firstn k depths))) dpr).
    { induction k as [|k IH]; intros Hk; [reflexivity|].
      destruct (nth_error (Swin.swin_layers net) k) as [a|] eqn:Ha.
      2:{ apply nth_error_None in Ha. lia. }
      destruct (Hfacts _ _ Ha) as [Hd Hp].
      destruct (py_sum_prefix _ Hpos Hd) as (S0 & D0 & Ss & _).
      rewrite (firstn_S_nth _ _ Ha), map_app, concat_app, IH by lia.
      cbn [map concat]. rewrite app_nil_r, Hp.
      apply firstn_py_slice. lia. }
    specialize (Hk _ (Nat.le_refl _)).
    rewrite firstn_all in Hk. rewrite Hk, Ln, firstn_all, <- Hlen.
    rewrite Nat2Z.id. apply firstn_all.
  - apply Forall_forall. intros a Hin.
    apply In_nth_error in Hin. destruct Hin as [i Ha].
    destruct (Hfacts _ _ Ha) as [Hd Hp].
    destruct (py_sum_prefix _ Hpos Hd) as (S0 & D0 & Ss & Sle).
    rewrite Hp, py_slice_length by lia. lia.
Qed.

Lemma swin_drop_path_partition_witness :
  concat (map Swin.drop_path (Swin.swin_layers Swin.default_net))
  = Swin.default_dpr /\
  Forall (fun a => Z.of_nat (length (Swin.drop_path a)) = Swin.depth a)
         (Swin.swin_layers Swin.default_net).
Proof.
  refine (@swin_drop_path_partition _ _ _ _ _ _ _ _ _ _
            swin_default_net _ _).
  - repeat constructor; discriminate.
  - vm_compute. reflexivity.
Defined.
